(** * Brainus AI JavaScript SDK: the client class [BrainusAI]

    A shallow embedding of the [BrainusAI] class (constructor, [query],
    [getPlans], [makeRequest], [handleErrorResponse], [sleep]) together with
    the properties of its retry loop, its error mapping and its
    snake_case to camelCase remapping.

    The network is an explicit parameter: a [Transport] answers the n-th
    [fetch] of a run, and every [fetch] and every [sleep] is appended to a
    trace, so that call counts and backoff waits are observable. *)

From Stdlib Require Import ZArith String Ascii List Lia DecimalString DecimalPos.
From stdpp Require Import gmap strings list.

Local Open Scope string_scope.
Local Open Scope list_scope.
Set Warnings "-register-all".

(* ===================================================================== *)
(** ** JavaScript values and the built-ins the client calls *)
(* ===================================================================== *)

Module Js.

(** What [JSON.parse] can produce, plus [undefined].  Numbers are the
    integer-valued ones; members of an object are kept in source order. *)
Inductive Value : Type :=
| Undefined
| Null
| Bool (b : bool)
| Num (n : Z)
| Str (s : string)
| Arr (items : list Value)
| Obj (members : list (string * Value)).

(** The result of [parseInt]. *)
Inductive Number : Type :=
| Finite (n : Z)
| NaN.

(** ToBoolean. *)
Definition truthy (v : Value) : bool :=
  match v with
  | Undefined | Null => false
  | Bool b => b
  | Num n => negb (n =? 0)%Z
  | Str s => negb (String.eqb s "")
  | Arr _ | Obj _ => true
  end.

(** [a || b]. *)
Definition or (a b : Value) : Value := if truthy a then a else b.

(** A later member with the same key overrides an earlier one, as in
    [JSON.parse]. *)
Fixpoint member (key : string) (ms : list (string * Value)) : option Value :=
  match ms with
  | [] => None
  | (k, v) :: rest =>
      match member key rest with
      | Some v' => Some v'
      | None => if String.eqb k key then Some v else None
      end
  end.

(** Number::toString for an integer. *)
Definition numToString (n : Z) : string := NilZero.string_of_int (Z.to_int n).

(** ToString, as the [Error] constructor and template literals apply it. *)
Fixpoint toString (v : Value) : string :=
  match v with
  | Undefined => "undefined"
  | Null => "null"
  | Bool true => "true"
  | Bool false => "false"
  | Num n => numToString n
  | Str s => s
  | Arr items =>
      String.concat ","
        (List.map (fun x => match x with
                            | Undefined | Null => ""
                            | _ => toString x
                            end) items)
  | Obj _ => "[object Object]"
  end.

(** [String.prototype.includes]: [needle] occurs somewhere in [s]. *)
Fixpoint includes (needle s : string) : bool :=
  String.prefix needle s ||
  match s with
  | EmptyString => false
  | String _ rest => includes needle rest
  end.

Definition lowerChar (c : ascii) : ascii :=
  let n := nat_of_ascii c in
  if (65 <=? n)%nat && (n <=? 90)%nat then ascii_of_nat (n + 32) else c.

(** [String.prototype.toLowerCase] on the ASCII letters; a string is its
    UTF-8 bytes, and no other character lowers to an ASCII letter of
    "quota". *)
Fixpoint toLowerCase (s : string) : string :=
  match s with
  | EmptyString => EmptyString
  | String c rest => String (lowerChar c) (toLowerCase rest)
  end.

(** The white space that [parseInt] skips, in a string whose characters
    are single bytes, as the value of a header is: of the white space and
    line terminators of the language, only tab, LF, VT, FF, CR, space and
    the no-break space U+00A0 lie below 256. *)
Definition isWhiteSpace (c : ascii) : bool :=
  match nat_of_ascii c with
  | 9 | 10 | 11 | 12 | 13 | 32 | 160 => true
  | _ => false
  end%nat.

Fixpoint trimStart (s : string) : string :=
  match s with
  | EmptyString => EmptyString
  | String c rest => if isWhiteSpace c then trimStart rest else s
  end.

Definition digit (c : ascii) : option Z :=
  let n := nat_of_ascii c in
  if (48 <=? n)%nat && (n <=? 57)%nat then Some (Z.of_nat (n - 48)) else None.

(** The longest prefix of decimal digits, [None] when it is empty. *)
Fixpoint digits (s : string) (acc : option Z) : option Z :=
  match s with
  | EmptyString => acc
  | String c rest =>
      match digit c with
      | Some d => digits rest (Some (10 * default 0 acc + d)%Z)
      | None => acc
      end
  end.

(** [parseInt(s, 10)]. *)
Definition parseInt (s : string) : Number :=
  let s1 := trimStart s in
  let '(sign, s2) :=
    match s1 with
    | String "-" rest => ((-1)%Z, rest)
    | String "+" rest => (1%Z, rest)
    | _ => (1%Z, s1)
    end in
  match digits s2 None with
  | Some n => Finite (sign * n)
  | None => NaN
  end.

End Js.

Import Js.

(* ===================================================================== *)
(** ** Errors, results and the monad of effects *)
(* ===================================================================== *)

(** Modelled from the spec: the error classes of [./errors], which is not
    among the sources.  Each kind of the spec's taxonomy is a class of its
    own; a rate-limit error carries the optional retry-after hint, an API
    error the optional status code, and only an API error is an
    [instanceof APIError].  Each holds the message it is built with, as a
    string.  [NativeError] stands for what the runtime itself throws
    ([Error], [TypeError], [SyntaxError], a timeout [DOMException]); the
    texts of the type errors are those of V8. *)
Inductive Thrown : Type :=
| AuthenticationError (message : string)
| RateLimitError (message : string) (retryAfter : option Number)
| QuotaExceededError (message : string)
| APIError (message : string) (statusCode : option Z)
| NativeError (name message : string).

(** [error.message]. *)
Definition messageOf (e : Thrown) : string :=
  match e with
  | AuthenticationError m => m
  | RateLimitError m _ => m
  | QuotaExceededError m => m
  | APIError m _ => m
  | NativeError _ m => m
  end.

Inductive Result (A : Type) : Type :=
| Ok (a : A)
| Throw (e : Thrown).

Arguments Ok {A} a.
Arguments Throw {A} e.

Definition bindR {A B} (r : Result A) (k : A -> Result B) : Result B :=
  match r with
  | Ok a => k a
  | Throw e => Throw e
  end.

Declare Scope result_scope.
Delimit Scope result_scope with result.
Notation "x <- r ;; k" := (bindR r (fun x => k))
  (at level 100, r at next level, right associativity) : result_scope.

(** [xs.map(f)] for a callback that may throw. *)
Fixpoint mapR {A B} (f : A -> Result B) (xs : list A) : Result (list B) :=
  match xs with
  | [] => Ok []
  | x :: rest => (y <- f x ;; ys <- mapR f rest ;; Ok (y :: ys))%result
  end.

(** [v.key] for the keys the client reads, none of which names a built-in
    property of a primitive or of an array. *)
Definition getProp (v : Value) (key : string) : Result Value :=
  match v with
  | Undefined =>
      Throw (NativeError "TypeError"
               ("Cannot read properties of undefined (reading '" +:+ key +:+ "')"))
  | Null =>
      Throw (NativeError "TypeError"
               ("Cannot read properties of null (reading '" +:+ key +:+ "')"))
  | Obj ms => Ok (default Undefined (member key ms))
  | _ => Ok Undefined
  end.

Definition notAFunction (method : string) : Thrown :=
  NativeError "TypeError" (method +:+ " is not a function").

(** [v.map(f)]: only an array has a callable [map]. *)
Definition callMap {B} (v : Value) (f : Value -> Result B) : Result (list B) :=
  match v with
  | Arr items => mapR f items
  | Undefined =>
      Throw (NativeError "TypeError" "Cannot read properties of undefined (reading 'map')")
  | Null =>
      Throw (NativeError "TypeError" "Cannot read properties of null (reading 'map')")
  | _ => Throw (notAFunction "map")
  end.

(** [v.includes(needle)] with a string argument. *)
Definition callIncludes (v : Value) (needle : string) : Result bool :=
  match v with
  | Str s => Ok (includes needle s)
  | Arr items =>
      Ok (existsb (fun x => match x with
                            | Str s => String.eqb s needle
                            | _ => false
                            end) items)
  | _ => Throw (notAFunction "includes")
  end.

(** [v.toLowerCase()]. *)
Definition callToLowerCase (v : Value) : Result string :=
  match v with
  | Str s => Ok (toLowerCase s)
  | _ => Throw (notAFunction "toLowerCase")
  end.

(* ===================================================================== *)
(** ** The records of [src/types.ts] *)
(* ===================================================================== *)

Module BrainusAIConfig.
Record t : Type := mk {
  apiKey : option string;
  baseUrl : option string;
  timeout : option Z;
  maxRetries : option Z
}.
End BrainusAIConfig.

Module QueryFilters.
Record t : Type := mk {
  subject : option string;
  grade : option string;
  year : option string;
  category : option string;
  language : option string
}.
End QueryFilters.

Module QueryRequest.
Record t : Type := mk {
  query : string;
  storeId : option string;
  filters : option QueryFilters.t;
  model : option string
}.
End QueryRequest.

(** The remapped records hold whatever the raw response held: the fields
    are copied, not checked. *)
Module Citation.
Record t : Type := mk {
  documentId : Value;
  documentName : Value;
  pages : Value;
  metadata : Value;
  chunkText : Value
}.
End Citation.

Module QueryResponse.
Record t : Type := mk {
  answer : Value;
  citations : list Citation.t;
  hasCitations : Value
}.
End QueryResponse.

Module Plan.
Record t : Type := mk {
  id : Value;
  name : Value;
  description : Value;
  rateLimitPerMinute : Value;
  rateLimitPerDay : Value;
  monthlyQuota : Value;
  priceLkr : Value;
  allowedModels : Value;
  features : Value;
  isActive : Value
}.
End Plan.

(* ===================================================================== *)
(** ** Requests, responses and the trace of effects *)
(* ===================================================================== *)

(** A value stored under a key of the request body. *)
Inductive BodyValue : Type :=
| BString (s : string)
| BFilters (f : QueryFilters.t).

(** The argument of [fetch].  [body] is the object handed to
    [JSON.stringify], whose keys are the keys of the transmitted JSON text;
    [signalTimeout] is the delay given to [AbortSignal.timeout]. *)
Record Request : Type := mkRequest {
  url : string;
  method : string;
  headers : list (string * string);
  body : option (gmap string BodyValue);
  signalTimeout : Z
}.

(** [response.json()]: the parsed body, or the message of the error it
    rejects with when the body is empty or is not JSON. *)
Inductive Json : Type :=
| Parsed (v : Value)
| Unparsable (message : string).

Record Response : Type := mkResponse {
  status : Z;
  statusText : string;
  responseHeaders : list (string * string);
  json : Json
}.

(** [response.ok]. *)
Definition ok (r : Response) : bool := ((200 <=? status r) && (status r <=? 299))%Z.

(** [response.headers.get(name)]: names compare without case, and several
    values of one name are joined. *)
Definition headersGet (r : Response) (name : string) : option string :=
  match List.filter (fun h => String.eqb (toLowerCase (fst h)) (toLowerCase name))
                    (responseHeaders r) with
  | [] => None
  | hs => Some (String.concat ", " (List.map snd hs))
  end.

(** What one [fetch] does: it resolves with a response, or rejects with a
    native error (a network failure, or the timeout of the abort signal). *)
Inductive FetchOutcome : Type :=
| Resolve (r : Response)
| Reject (name message : string).

(** The transport answers a request by the number of calls made before. *)
Definition Transport : Type := Request -> nat -> FetchOutcome.

Inductive Event : Type :=
| EFetch (req : Request)
| ESleep (ms : Z).

Definition Trace : Type := list Event.

Definition isFetch (e : Event) : bool :=
  match e with
  | EFetch _ => true
  | ESleep _ => false
  end.

(** The number of transport calls of a trace. *)
Definition fetchCount (w : Trace) : nat := length (List.filter isFetch w).

(** The waits of a trace, in order. *)
Fixpoint sleeps (w : Trace) : list Z :=
  match w with
  | [] => []
  | ESleep ms :: rest => ms :: sleeps rest
  | EFetch _ :: rest => sleeps rest
  end.

(** An asynchronous computation: it extends the trace and returns or throws. *)
Definition M (A : Type) : Type := Trace -> Result A * Trace.

Definition ret {A} (a : A) : M A := fun w => (Ok a, w).

Definition throw {A} (e : Thrown) : M A := fun w => (Throw e, w).

Definition bind {A B} (m : M A) (k : A -> M B) : M B :=
  fun w =>
    match m w with
    | (Ok a, w') => k a w'
    | (Throw e, w') => (Throw e, w')
    end.

(** [try { m } catch (error) { h error }]. *)
Definition catch {A} (m : M A) (h : Thrown -> M A) : M A :=
  fun w =>
    match m w with
    | (Ok a, w') => (Ok a, w')
    | (Throw e, w') => h e w'
    end.

Definition liftR {A} (r : Result A) : M A := fun w => (r, w).

Declare Scope async_scope.
Delimit Scope async_scope with async.
Notation "x <- m ;; k" := (bind m (fun x => k))
  (at level 100, m at next level, right associativity) : async_scope.
Notation "m ;; k" := (bind m (fun _ => k))
  (at level 100, right associativity) : async_scope.

(* ===================================================================== *)
(** ** The client *)
(* ===================================================================== *)

Record BrainusAI : Type := mkBrainusAI {
  apiKey : string;
  baseUrl : string;
  timeout : Z;
  maxRetries : Z
}.

Definition invalidKey : Thrown :=
  NativeError "Error" "Invalid API key format. Expected format: brainus_...".

(** [new BrainusAI(config)].  A missing key and the empty key are falsy;
    [??] replaces only a missing field. *)
Definition constructor (config : BrainusAIConfig.t) : Result BrainusAI :=
  match BrainusAIConfig.apiKey config with
  | None => Throw invalidKey
  | Some key =>
      if String.eqb key "" || negb (String.prefix "brainus_" key)
      then Throw invalidKey
      else Ok {| apiKey := key;
                 baseUrl := default "https://api.brainus.lk" (BrainusAIConfig.baseUrl config);
                 timeout := default 30000%Z (BrainusAIConfig.timeout config);
                 maxRetries := default 3%Z (BrainusAIConfig.maxRetries config) |}
  end.

(** [await response.json()]. *)
Definition responseJson (response : Response) : Result Value :=
  match json response with
  | Parsed v => Ok v
  | Unparsable message => Throw (NativeError "SyntaxError" message)
  end.

(** The first half of [handleErrorResponse]: the [try] block computes
    [errorData.detail || errorData.message || response.statusText], and the
    [catch] falls back to the status text. *)
Definition errorMessageOf (response : Response) : Value :=
  let tried :=
    (errorData <- responseJson response ;;
     detail <- getProp errorData "detail" ;;
     if truthy detail then Ok detail
     else
       message <- getProp errorData "message" ;;
       if truthy message then Ok message
       else Ok (Str (statusText response)))%result in
  match tried with
  | Ok v => v
  | Throw _ => Str (statusText response)
  end.

Definition noStoreId : string :=
  "No store_id provided and no default store configured".

Definition noStoreIdClarified : string :=
  "No store_id provided and no default store configured. Please provide a store_id in your request.".

(** [retryAfter ? parseInt(retryAfter, 10) : undefined]. *)
Definition retryAfterOf (response : Response) : option Number :=
  match headersGet response "Retry-After" with
  | None => None
  | Some retryAfter =>
      if String.eqb retryAfter "" then None else Some (parseInt retryAfter)
  end.

(** [handleErrorResponse(response)].  An error is built from the message
    converted to a string.  The result type leaves room for a return. *)
Definition handleErrorResponse (response : Response) : Result unit :=
  let errorMessage := errorMessageOf response in
  if (status response =? 401)%Z then
    Throw (AuthenticationError (toString errorMessage))
  else if (status response =? 429)%Z then
    Throw (RateLimitError (toString errorMessage) (retryAfterOf response))
  else if (status response =? 400)%Z then
    (found <- callIncludes errorMessage noStoreId ;;
     if (found : bool) then Throw (APIError noStoreIdClarified (Some 400%Z))
     else Throw (APIError (toString errorMessage) (Some (status response))))%result
  else if (status response =? 403)%Z then
    (lowered <- callToLowerCase errorMessage ;;
     if includes "quota" lowered
     then Throw (QuotaExceededError (toString errorMessage))
     else Throw (APIError (toString errorMessage) (Some (status response))))%result
  else
    Throw (APIError (toString errorMessage) (Some (status response))).

(** The test of the [catch] block of [makeRequest]: the errors that are
    thrown again at once.  A status code of [0] is falsy. *)
Definition rethrown (error : Thrown) : bool :=
  match error with
  | AuthenticationError _ => true
  | QuotaExceededError _ => true
  | APIError _ (Some statusCode) => negb (statusCode =? 0)%Z && (statusCode <? 500)%Z
  | _ => false
  end.

(** [Math.min(1000 * Math.pow(2, attempt), 10000)]. *)
Definition backoff (attempt : Z) : Z := Z.min (1000 * 2 ^ attempt) 10000.

(** The message of the error thrown after the loop:
    [lastError?.message] is [undefined] when no attempt was made. *)
Definition exhaustedMessage (self : BrainusAI) (lastError : option Thrown) : string :=
  "Request failed after " +:+ numToString (maxRetries self + 1) +:+ " attempts: "
    +:+ match lastError with
        | Some error => messageOf error
        | None => "undefined"
        end.

Definition requestOf (self : BrainusAI) (method endpoint : string)
    (body : option (gmap string BodyValue)) : Request :=
  {| url := baseUrl self +:+ endpoint;
     method := method;
     headers := [("X-API-Key", apiKey self);
                 ("Content-Type", "application/json");
                 ("User-Agent", "@brainus/ai/0.1.0")];
     body := body;
     signalTimeout := timeout self |}.

(** The remapping of one raw citation in [query]. *)
Definition remapCitation (c : Value) : Result Citation.t :=
  (document_id <- getProp c "document_id" ;;
   document_name <- getProp c "document_name" ;;
   pages <- getProp c "pages" ;;
   metadata <- getProp c "metadata" ;;
   chunk_text <- getProp c "chunk_text" ;;
   Ok {| Citation.documentId := document_id;
         Citation.documentName := document_name;
         Citation.pages := or pages (Arr []);
         Citation.metadata := metadata;
         Citation.chunkText := chunk_text |})%result.

(** The object returned by [query], built from the raw response. *)
Definition remapQueryResponse (response : Value) : Result QueryResponse.t :=
  (answer <- getProp response "answer" ;;
   citations <- getProp response "citations" ;;
   mapped <- callMap (or citations (Arr [])) remapCitation ;;
   has_citations <- getProp response "has_citations" ;;
   Ok {| QueryResponse.answer := answer;
         QueryResponse.citations := mapped;
         QueryResponse.hasCitations := has_citations |})%result.

(** The remapping of one raw plan in [getPlans]. *)
Definition remapPlan (p : Value) : Result Plan.t :=
  (id <- getProp p "id" ;;
   name <- getProp p "name" ;;
   description <- getProp p "description" ;;
   rate_limit_per_minute <- getProp p "rate_limit_per_minute" ;;
   rate_limit_per_day <- getProp p "rate_limit_per_day" ;;
   monthly_quota <- getProp p "monthly_quota" ;;
   price_lkr <- getProp p "price_lkr" ;;
   allowed_models <- getProp p "allowed_models" ;;
   features <- getProp p "features" ;;
   is_active <- getProp p "is_active" ;;
   Ok {| Plan.id := id;
         Plan.name := name;
         Plan.description := description;
         Plan.rateLimitPerMinute := rate_limit_per_minute;
         Plan.rateLimitPerDay := rate_limit_per_day;
         Plan.monthlyQuota := monthly_quota;
         Plan.priceLkr := price_lkr;
         Plan.allowedModels := or allowed_models (Arr []);
         Plan.features := or features (Obj []);
         Plan.isActive := is_active |})%result.

(** [response.plans.map(...)]. *)
Definition remapPlans (response : Value) : Result (list Plan.t) :=
  (plans <- getProp response "plans" ;;
   callMap plans remapPlan)%result.

(** The body object built at the start of [query]. *)
Definition queryBody (request : QueryRequest.t) : gmap string BodyValue :=
  let body : gmap string BodyValue := {[ "query" := BString (QueryRequest.query request) ]} in
  let body :=
    match QueryRequest.storeId request with
    | Some storeId => <[ "store_id" := BString storeId ]> body
    | None => body
    end in
  let body :=
    match QueryRequest.filters request with
    | Some filters => <[ "filters" := BFilters filters ]> body
    | None => body
    end in
  match QueryRequest.model request with
  | Some model => <[ "model" := BString model ]> body
  | None => body
  end.

(** [AbortSignal.timeout(delay)] as Node has it: the delay is an unsigned
    32-bit integer, and any other throws a [RangeError]. *)
Definition abortSignalTimeout (delay : Z) : Result unit :=
  if ((0 <=? delay) && (delay <=? 4294967295))%Z
  then Ok tt
  else Throw (NativeError "RangeError" "The value of 'delay' is out of range.").

Section Client.

Variable transport : Transport.

(** [await fetch(url, init)]. *)
Definition fetch (req : Request) : M Response :=
  fun w =>
    (match transport req (fetchCount w) with
     | Resolve r => Ok r
     | Reject name message => Throw (NativeError name message)
     end,
     (w ++ [EFetch req])%list).

(** [await this.sleep(ms)]. *)
Definition sleep (ms : Z) : M unit := fun w => (Ok tt, (w ++ [ESleep ms])%list).

(** The [try] block of [makeRequest].  The argument of [fetch] is built
    first, and building its [signal] may throw: no call is made then. *)
Definition attemptOnce (req : Request) : M Value :=
  (liftR (abortSignalTimeout (signalTimeout req)) ;;
   response <- fetch req ;;
   (if negb (ok response) then liftR (handleErrorResponse response) else ret tt) ;;
   liftR (responseJson response))%async.

(** The [for] loop of [makeRequest] followed by the final [throw]:
    [remaining] counts the iterations left, [maxRetries + 1 - attempt] of
    them when that is positive. *)
Fixpoint retryLoop (self : BrainusAI) (req : Request) (remaining : nat)
    (attempt : Z) (lastError : option Thrown) : M Value :=
  match remaining with
  | O => throw (APIError (exhaustedMessage self lastError) None)
  | S remaining' =>
      catch (attemptOnce req)
        (fun error =>
           if rethrown error then throw error
           else
             ((if (attempt <? maxRetries self)%Z
               then sleep (backoff attempt)
               else ret tt) ;;
              retryLoop self req remaining' (attempt + 1) (Some error))%async)
  end.

Definition makeRequest (self : BrainusAI) (method endpoint : string)
    (body : option (gmap string BodyValue)) : M Value :=
  retryLoop self (requestOf self method endpoint body)
    (Z.to_nat (maxRetries self + 1)) 0 None.

Definition query (self : BrainusAI) (request : QueryRequest.t) : M QueryResponse.t :=
  (response <- makeRequest self "POST" "/api/v1/dev/query" (Some (queryBody request)) ;;
   liftR (remapQueryResponse response))%async.

Definition getPlans (self : BrainusAI) : M (list Plan.t) :=
  (response <- makeRequest self "GET" "/api/v1/dev/plans" None ;;
   liftR (remapPlans response))%async.

End Client.

(* ===================================================================== *)
(** ** What one attempt yields, and the traces the loop leaves *)
(* ===================================================================== *)

(** The result of the [try] block as a function of what [fetch] did. *)
Definition settle (o : FetchOutcome) : Result Value :=
  match o with
  | Reject name message => Throw (NativeError name message)
  | Resolve r =>
      if ok r then responseJson r
      else (_ <- handleErrorResponse r ;; responseJson r)%result
  end.

(** The events of [n] failed attempts that are not thrown again, the first
    of them numbered [attempt]. *)
Fixpoint failedTrace (self : BrainusAI) (req : Request) (n : nat) (attempt : Z) : Trace :=
  match n with
  | O => []
  | S n' =>
      (EFetch req ::
       (if (attempt <? maxRetries self)%Z then [ESleep (backoff attempt)] else []) ++
       failedTrace self req n' (attempt + 1))%list
  end.

(** The schedule of the spec: [n] failed attempts, each followed by its
    wait of [min(1000 * 2^k, 10000)] ms, and then one more attempt. *)
Definition retrySchedule (req : Request) (n : nat) : Trace :=
  (flat_map (fun k => [EFetch req; ESleep (Z.min (1000 * 2 ^ Z.of_nat k) 10000)]) (seq 0 n)
   ++ [EFetch req])%list.

(** The failed attempts alone: what the trace holds, after the start of
    the call, when attempt [n] begins. *)
Definition failedAttempts (req : Request) (n : nat) : Trace :=
  flat_map (fun k => [EFetch req; ESleep (Z.min (1000 * 2 ^ Z.of_nat k) 10000)]) (seq 0 n).

(** The errors that the spec says are raised again at once: an
    authentication error, a quota-exceeded error, or an API error carrying
    a status code below 500. *)
Definition raisedAgain (e : Thrown) : Prop :=
  (exists m, e = AuthenticationError m) \/
  (exists m, e = QuotaExceededError m) \/
  (exists m c, e = APIError m (Some c) /\ c <> 0%Z /\ (c < 500)%Z).

(** The message of the error a failed call of the transport stands for:
    the message of the rejection, or the message extracted from the
    response. *)
Definition failureMessage (o : FetchOutcome) : string :=
  match o with
  | Reject _ message => message
  | Resolve r => toString (errorMessageOf r)
  end.

(** A failure of the transport that the spec calls retryable: a network
    failure or a timeout (a rejected [fetch]), or a status of 500 or more. *)
Definition retryableFailure (o : FetchOutcome) : Prop :=
  match o with
  | Reject _ _ => True
  | Resolve r => (500 <= status r)%Z
  end.

(** The last error after [n] failed attempts that began when [count] calls
    had been made. *)
Definition lastErrorAfter (transport : Transport) (req : Request) (count n : nat)
    (lastError : option Thrown) : option Thrown :=
  match n with
  | O => lastError
  | S k =>
      match settle (transport req (count + k)) with
      | Throw e => Some e
      | Ok _ => lastError
      end
  end.

(** [data.key] when [data] is a parsed body: [undefined] unless [data] is
    an object with that member. *)
Definition field (key : string) (data : Value) : Value :=
  match data with
  | Obj ms => default Undefined (member key ms)
  | _ => Undefined
  end.



(* ===================================================================== *)
(** ** Sample data *)
(* ===================================================================== *)

Definition sampleConfig : BrainusAIConfig.t :=
  BrainusAIConfig.mk (Some "brainus_test") None None None.

Definition sampleClient : BrainusAI :=
  {| apiKey := "brainus_test";
     baseUrl := "https://api.brainus.lk";
     timeout := 30000;
     maxRetries := 3 |}.

Definition sampleQuery : QueryRequest.t :=
  QueryRequest.mk "What is Python?" None None None.

Definition sampleQueryRequest : Request :=
  requestOf sampleClient "POST" "/api/v1/dev/query" (Some (queryBody sampleQuery)).

(** A transport that answers every call with the same response. *)
Definition always (r : Response) : Transport := fun _ _ => Resolve r.

(** A transport that answers its first [n] calls with [bad] and the later
    ones with [r]. *)
Definition answersThen (n : nat) (bad r : Response) : Transport :=
  fun _ count => if (count <? n)%nat then Resolve bad else Resolve r.

(** A transport that rejects its first [n] calls and then answers [r]. *)
Definition failsThen (n : nat) (r : Response) : Transport :=
  fun _ count => if (count <? n)%nat then Reject "TypeError" "fetch failed" else Resolve r.

Definition serviceUnavailable : Response :=
  {| status := 503;
     statusText := "Service Unavailable";
     responseHeaders := [];
     json := Parsed (Obj [("detail", Str "upstream down")]) |}.

Definition unauthorized : Response :=
  {| status := 401;
     statusText := "Unauthorized";
     responseHeaders := [];
     json := Parsed (Obj [("detail", Str "Invalid API key")]) |}.

Definition rateLimited : Response :=
  {| status := 429;
     statusText := "Too Many Requests";
     responseHeaders := [("Retry-After", "5")];
     json := Parsed (Obj [("detail", Str "Rate limit exceeded")]) |}.

Definition quotaExceeded : Response :=
  {| status := 403;
     statusText := "Forbidden";
     responseHeaders := [];
     json := Parsed (Obj [("message", Str "Monthly Quota exceeded")]) |}.

(** A 400 whose [detail] is a number. *)
Definition numericDetail : Response :=
  {| status := 400;
     statusText := "Bad Request";
     responseHeaders := [];
     json := Parsed (Obj [("detail", Num 123)]) |}.

Definition notJson : Response :=
  {| status := 200;
     statusText := "OK";
     responseHeaders := [];
     json := Unparsable "Unexpected token < in JSON at position 0" |}.

(** The raw response of the round-trip property. *)
Definition rawAnswer : Value :=
  Obj [("answer", Str "x");
       ("citations",
        Arr [Obj [("document_id", Str "d1");
                  ("document_name", Str "Doc");
                  ("pages", Arr [Num 1; Num 2])]]);
       ("has_citations", Bool true)].

Definition answered : Response :=
  {| status := 200; statusText := "OK"; responseHeaders := []; json := Parsed rawAnswer |}.

(* ===================================================================== *)
(** ** Usage statistics, and the Express endpoint of the examples *)
(* ===================================================================== *)

Module PlanInfo.
Record t : Type := mk {
  name : Value;
  rateLimitPerMinute : Value;
  rateLimitPerDay : Value;
  monthlyQuota : Value
}.
End PlanInfo.

(** [plan] is [None] for [undefined]. *)
Module UsageStats.
Record t : Type := mk {
  totalRequests : Value;
  totalTokens : Value;
  totalCostUsd : Value;
  byEndpoint : Value;
  quotaRemaining : Value;
  quotaPercentage : Value;
  plan : option PlanInfo.t;
  periodStart : Value;
  periodEnd : Value
}.
End UsageStats.

(** The object returned by [getUsage], built from the raw response.  The
    source reads [response.plan] once more for each field of the nested
    record, with the same result each time. *)
Definition remapUsage (response : Value) : Result UsageStats.t :=
  (total_requests <- getProp response "total_requests" ;;
   total_tokens <- getProp response "total_tokens" ;;
   total_cost_usd <- getProp response "total_cost_usd" ;;
   by_endpoint <- getProp response "by_endpoint" ;;
   quota_remaining <- getProp response "quota_remaining" ;;
   quota_percentage <- getProp response "quota_percentage" ;;
   plan <- getProp response "plan" ;;
   planInfo <-
     (if truthy plan then
        name <- getProp plan "name" ;;
        rate_limit_per_minute <- getProp plan "rate_limit_per_minute" ;;
        rate_limit_per_day <- getProp plan "rate_limit_per_day" ;;
        monthly_quota <- getProp plan "monthly_quota" ;;
        Ok (Some {| PlanInfo.name := name;
                    PlanInfo.rateLimitPerMinute := rate_limit_per_minute;
                    PlanInfo.rateLimitPerDay := rate_limit_per_day;
                    PlanInfo.monthlyQuota := monthly_quota |})
      else Ok None) ;;
   period_start <- getProp response "period_start" ;;
   period_end <- getProp response "period_end" ;;
   Ok {| UsageStats.totalRequests := total_requests;
         UsageStats.totalTokens := total_tokens;
         UsageStats.totalCostUsd := total_cost_usd;
         UsageStats.byEndpoint := or by_endpoint (Obj []);
         UsageStats.quotaRemaining := quota_remaining;
         UsageStats.quotaPercentage := quota_percentage;
         UsageStats.plan := planInfo;
         UsageStats.periodStart := period_start;
         UsageStats.periodEnd := period_end |})%result.

Definition getUsage (transport : Transport) (self : BrainusAI) : M UsageStats.t :=
  (response <- makeRequest transport self "GET" "/api/v1/dev/usage" None ;;
   liftR (remapUsage response))%async.

(** [client.query], under a name that the handler's own [query] does not
    hide. *)
Definition clientQuery := query.

(** What the Express endpoint answers: [res.json(result)] with the default
    status, or [res.status(500).json({ error: error.message })]. *)
Inductive Reply : Type :=
| ReplyResult (statusCode : Z) (result : QueryResponse.t)
| ReplyError (statusCode : Z) (error : string).

(** The handler of [app.post("/api/query", ...)] in
    [examples/express-query.ts], for a request body whose [query] is a
    string, whose [storeId] is a string or absent and whose [filters] is a
    filter object or absent: the three fields are handed to [client.query],
    and no model is. *)
Definition expressQueryHandler (transport : Transport) (client : BrainusAI)
    (query : string) (storeId : option string) (filters : option QueryFilters.t) : M Reply :=
  catch
    (result <- clientQuery transport client
                 (QueryRequest.mk query storeId filters None) ;;
     ret (ReplyResult 200 result))%async
    (fun error => ret (ReplyError 500 (messageOf error))).

(* ===================================================================== *)
(** ** Traces *)
(* ===================================================================== *)

Lemma fetchCount_app (w1 w2 : Trace) :
  fetchCount (w1 ++ w2) = (fetchCount w1 + fetchCount w2)%nat.
Proof.
  unfold fetchCount. rewrite List.filter_app, length_app. reflexivity.
Qed.

Lemma sleeps_app (w1 w2 : Trace) : sleeps (w1 ++ w2) = (sleeps w1 ++ sleeps w2)%list.
Proof.
  induction w1 as [|[req|ms] w1 IH]; simpl; [reflexivity|exact IH|].
  now rewrite IH.
Qed.

Lemma fetchCount_failedTrace self req n attempt :
  fetchCount (failedTrace self req n attempt) = n.
Proof.
  revert attempt. induction n as [|n IH]; intros attempt; [reflexivity|].
  cbn [failedTrace]. change (EFetch req :: ?l)%list with ([EFetch req] ++ l)%list.
  rewrite !fetchCount_app, IH.
  destruct (attempt <? maxRetries self)%Z; reflexivity.
Qed.

(** While attempts remain after each of them, the failed attempts follow
    the schedule of the spec. *)
Lemma failedTrace_schedule self req n k :
  (Z.of_nat (k + n) <= maxRetries self)%Z ->
  failedTrace self req n (Z.of_nat k) =
  flat_map (fun k => [EFetch req; ESleep (Z.min (1000 * 2 ^ Z.of_nat k) 10000)]) (seq k n).
Proof.
  revert k. induction n as [|n IH]; intros k Hk; [reflexivity|].
  cbn [failedTrace seq flat_map].
  replace (Z.of_nat k <? maxRetries self)%Z with true
    by (symmetry; apply Z.ltb_lt; lia).
  replace (Z.of_nat k + 1)%Z with (Z.of_nat (S k)) by lia.
  rewrite IH by lia. reflexivity.
Qed.

(** When every attempt fails, the last one is not followed by a wait. *)
Lemma failedTrace_exhausted self req :
  (0 <= maxRetries self)%Z ->
  failedTrace self req (Z.to_nat (maxRetries self + 1)) 0 =
  retrySchedule req (Z.to_nat (maxRetries self)).
Proof.
  intros Hpos. unfold retrySchedule.
  replace (Z.to_nat (maxRetries self + 1)) with (Z.to_nat (maxRetries self) + 1)%nat by lia.
  set (n := Z.to_nat (maxRetries self)).
  assert (Hn : maxRetries self = Z.of_nat n) by (unfold n; lia).
  assert (Hsplit : forall m k a,
             a = Z.of_nat k ->
             failedTrace self req (m + 1) a =
             (failedTrace self req m a ++ failedTrace self req 1 (Z.of_nat (k + m)))%list).
  { induction m as [|m IH]; intros k a ->.
    - simpl. now rewrite Nat.add_0_r.
    - cbn [Nat.add failedTrace]. rewrite (IH (S k)) by lia.
      replace (S k + m)%nat with (k + S m)%nat by lia.
      destruct (Z.of_nat k <? maxRetries self)%Z; simpl; reflexivity. }
  rewrite (Hsplit n 0%nat) by reflexivity.
  pose proof (failedTrace_schedule self req n 0) as Hs.
  change (Z.of_nat 0) with 0%Z in Hs. rewrite Hs by (simpl; lia).
  f_equal. cbn [failedTrace]. simpl (0 + n)%nat.
  replace (Z.of_nat n <? maxRetries self)%Z with false
    by (symmetry; apply Z.ltb_ge; lia).
  reflexivity.
Qed.

Section RetryLoop.

Variable transport : Transport.

(** With a delay that the abort signal accepts, one attempt records one
    call and yields what [settle] says. *)
Lemma attemptOnce_run (req : Request) (w : Trace) :
  (0 <= signalTimeout req <= 4294967295)%Z ->
  attemptOnce transport req w =
  (settle (transport req (fetchCount w)), w ++ [EFetch req]).
Proof.
  intros Hrange. unfold attemptOnce, abortSignalTimeout.
  replace ((0 <=? signalTimeout req)%Z && (signalTimeout req <=? 4294967295)%Z) with true
    by (symmetry; apply andb_true_iff; split; apply Z.leb_le; lia).
  unfold bind, liftR, fetch, settle.
  destruct (transport req (fetchCount w)) as [r|name message]; [|reflexivity].
  destruct (ok r); cbn [negb]; unfold ret, liftR; [reflexivity|].
  destruct (handleErrorResponse r) as [[]|e]; reflexivity.
Qed.

(** With any other delay, no call is made and a [RangeError] is thrown. *)
Lemma attemptOnce_out_of_range (req : Request) (w : Trace) :
  ~ (0 <= signalTimeout req <= 4294967295)%Z ->
  exists message,
    attemptOnce transport req w = (Throw (NativeError "RangeError" message), w).
Proof.
  intros Hrange. unfold attemptOnce, abortSignalTimeout.
  replace ((0 <=? signalTimeout req)%Z && (signalTimeout req <=? 4294967295)%Z) with false.
  - eexists. reflexivity.
  - symmetry. apply andb_false_iff.
    destruct (Z.leb_spec 0 (signalTimeout req)); [right|left; reflexivity].
    apply Z.leb_gt. lia.
Qed.

(** [n] attempts that throw errors of the retried kinds leave their trace
    and hand over to the rest of the loop. *)
Lemma retryLoop_failures self req n :
  (0 <= signalTimeout req <= 4294967295)%Z ->
  forall m attempt lastError w,
    (forall i, (i < n)%nat ->
       exists e, settle (transport req (fetchCount w + i)) = Throw e /\ rethrown e = false) ->
    retryLoop transport self req (n + m) attempt lastError w =
    retryLoop transport self req m (attempt + Z.of_nat n)
      (lastErrorAfter transport req (fetchCount w) n lastError)
      (w ++ failedTrace self req n attempt).
Proof.
  intros Hrange. induction n as [|n IH]; intros m attempt lastError w Hfail.
  - simpl. now rewrite Z.add_0_r, app_nil_r.
  - cbn [Nat.add retryLoop]. unfold catch at 1. rewrite attemptOnce_run by exact Hrange.
    destruct (Hfail 0%nat (Nat.lt_0_succ n)) as (e0 & He0 & Hre0).
    rewrite Nat.add_0_r in He0. rewrite He0, Hre0.
    unfold bind at 1.
    set (w1 := (w ++ [EFetch req]) ++
               (if (attempt <? maxRetries self)%Z then [ESleep (backoff attempt)] else [])).
    assert (Hstep :
      (if (attempt <? maxRetries self)%Z then sleep (backoff attempt) else ret tt)
        (w ++ [EFetch req]) = (Ok tt, w1)).
    { unfold w1. destruct (attempt <? maxRetries self)%Z; unfold sleep, ret.
      - reflexivity.
      - now rewrite app_nil_r. }
    rewrite Hstep.
    assert (Hc1 : fetchCount w1 = S (fetchCount w)).
    { unfold w1. rewrite !fetchCount_app.
      destruct (attempt <? maxRetries self)%Z; cbn; lia. }
    rewrite IH.
    + f_equal.
      * lia.
      * rewrite Hc1. destruct n as [|k]; cbn [lastErrorAfter].
        -- now rewrite Nat.add_0_r, He0.
        -- replace (S (fetchCount w) + k)%nat with (fetchCount w + S k)%nat by lia.
           destruct (Hfail (S k) (Nat.lt_succ_diag_r (S k))) as (e & He & _).
           now rewrite He.
      * unfold w1. cbn [failedTrace]. now rewrite <- !app_assoc.
    + intros i Hi. rewrite Hc1.
      replace (S (fetchCount w) + i)%nat with (fetchCount w + S i)%nat by lia.
      apply Hfail. lia.
Qed.

(** An attempt that returns ends the loop. *)
Lemma retryLoop_success self req m attempt lastError w v :
  (0 <= signalTimeout req <= 4294967295)%Z ->
  settle (transport req (fetchCount w)) = Ok v ->
  retryLoop transport self req (S m) attempt lastError w = (Ok v, w ++ [EFetch req]).
Proof.
  intros Hrange Hok. cbn [retryLoop]. unfold catch.
  now rewrite attemptOnce_run, Hok by exact Hrange.
Qed.

(** An attempt that throws an error of the other kinds ends the loop too. *)
Lemma retryLoop_rethrown self req m attempt lastError w e :
  (0 <= signalTimeout req <= 4294967295)%Z ->
  settle (transport req (fetchCount w)) = Throw e ->
  rethrown e = true ->
  retryLoop transport self req (S m) attempt lastError w = (Throw e, w ++ [EFetch req]).
Proof.
  intros Hrange He Hre. cbn [retryLoop]. unfold catch.
  now rewrite attemptOnce_run, He, Hre by exact Hrange.
Qed.

End RetryLoop.

(** An attempt makes its one call, or none when the delay of the abort
    signal is refused. *)
Lemma attemptOnce_cases (transport : Transport) (req : Request) (w : Trace) :
  attemptOnce transport req w = (settle (transport req (fetchCount w)), w ++ [EFetch req])
  \/ exists message,
       attemptOnce transport req w = (Throw (NativeError "RangeError" message), w).
Proof.
  destruct (Z_le_dec 0 (signalTimeout req)) as [Hlo|Hlo];
    [destruct (Z_le_dec (signalTimeout req) 4294967295) as [Hhi|Hhi]|].
  - left. apply attemptOnce_run. lia.
  - right. apply attemptOnce_out_of_range. lia.
  - right. apply attemptOnce_out_of_range. lia.
Qed.

Lemma attemptOnce_events (transport : Transport) (req : Request) (w : Trace) :
  exists result pre,
    attemptOnce transport req w = (result, w ++ pre) /\
    forall req', In (EFetch req') pre -> req' = req.
Proof.
  destruct (attemptOnce_cases transport req w) as [Hrun|[message Hrun]].
  - exists (settle (transport req (fetchCount w))), [EFetch req].
    split; [exact Hrun|]. intros req' [H|[]]. now injection H.
  - exists (Throw (NativeError "RangeError" message)), [].
    split; [now rewrite app_nil_r|intros ? []].
Qed.

(** The loop adds to the trace only calls with its one request, and waits. *)
Lemma retryLoop_events (transport : Transport) (self : BrainusAI) (req : Request) (n : nat) :
  forall attempt lastError w,
  exists t,
    snd (retryLoop transport self req n attempt lastError w) = w ++ t /\
    forall req', In (EFetch req') t -> req' = req.
Proof.
  induction n as [|n IH]; intros attempt lastError w.
  - exists []. split; [cbn; now rewrite app_nil_r|intros ? []].
  - cbn [retryLoop]. unfold catch.
    destruct (attemptOnce_events transport req w) as (result & pre & Hrun & Hone).
    rewrite Hrun. destruct result as [v|e].
    { exists pre. split; [reflexivity|exact Hone]. }
    destruct (rethrown e).
    { exists pre. split; [reflexivity|exact Hone]. }
    unfold bind.
    destruct (attempt <? maxRetries self)%Z; unfold sleep, ret.
    + destruct (IH (attempt + 1)%Z (Some e) ((w ++ pre) ++ [ESleep (backoff attempt)]))
        as (t & Ht & Hreq).
      exists (pre ++ [ESleep (backoff attempt)] ++ t). split.
      * rewrite Ht. now rewrite <- !app_assoc.
      * intros req' Hin. apply in_app_or in Hin as [Hin|Hin]; [now apply Hone|].
        apply in_app_or in Hin as [[Hin|[]]|Hin]; [discriminate Hin|now apply Hreq].
    + destruct (IH (attempt + 1)%Z (Some e) (w ++ pre)) as (t & Ht & Hreq).
      exists (pre ++ t). split.
      * rewrite Ht. now rewrite <- !app_assoc.
      * intros req' Hin. apply in_app_or in Hin as [Hin|Hin]; [now apply Hone|now apply Hreq].
Qed.

(** Whenever an iteration is left, the transport is called once more. *)
Lemma retryLoop_first_call (transport : Transport) (self : BrainusAI) (req : Request)
    (m : nat) (attempt : Z) (lastError : option Thrown) (w : Trace) :
  (0 <= signalTimeout req <= 4294967295)%Z ->
  exists t,
    snd (retryLoop transport self req (S m) attempt lastError w) = (w ++ [EFetch req]) ++ t.
Proof.
  intros Hrange. cbn [retryLoop]. unfold catch. rewrite attemptOnce_run by exact Hrange.
  destruct (settle (transport req (fetchCount w))) as [v|e].
  { exists []. now rewrite app_nil_r. }
  destruct (rethrown e).
  { exists []. now rewrite app_nil_r. }
  unfold bind.
  destruct (attempt <? maxRetries self)%Z; unfold sleep, ret.
  - destruct (retryLoop_events transport self req m (attempt + 1)%Z (Some e)
                ((w ++ [EFetch req]) ++ [ESleep (backoff attempt)])) as (t & Ht & _).
    exists ([ESleep (backoff attempt)] ++ t). rewrite Ht. now rewrite <- !app_assoc.
  - destruct (retryLoop_events transport self req m (attempt + 1)%Z (Some e)
                (w ++ [EFetch req])) as (t & Ht & _).
    exists t. exact Ht.
Qed.

(* ===================================================================== *)
(** ** The error mapping, case by case *)
(* ===================================================================== *)

Lemma handleErrorResponse_other (r : Response) :
  status r <> 401%Z -> status r <> 429%Z -> status r <> 400%Z -> status r <> 403%Z ->
  handleErrorResponse r = Throw (APIError (toString (errorMessageOf r)) (Some (status r))).
Proof.
  intros H401 H429 H400 H403. unfold handleErrorResponse.
  apply Z.eqb_neq in H401, H429, H400, H403.
  now rewrite H401, H429, H400, H403.
Qed.

Lemma handleErrorResponse_401 (r : Response) :
  status r = 401%Z ->
  handleErrorResponse r = Throw (AuthenticationError (toString (errorMessageOf r))).
Proof.
  intros H. unfold handleErrorResponse. now rewrite H.
Qed.

Lemma handleErrorResponse_429 (r : Response) :
  status r = 429%Z ->
  handleErrorResponse r =
  Throw (RateLimitError (toString (errorMessageOf r)) (retryAfterOf r)).
Proof.
  intros H. unfold handleErrorResponse. now rewrite H.
Qed.

(** Whatever the response, the mapping throws. *)
Lemma handleErrorResponse_throws (r : Response) :
  exists e, handleErrorResponse r = Throw e.
Proof.
  unfold handleErrorResponse.
  destruct (status r =? 401)%Z; [eauto|].
  destruct (status r =? 429)%Z; [eauto|].
  destruct (status r =? 400)%Z.
  { destruct (callIncludes (errorMessageOf r) noStoreId) as [[]|e]; simpl; eauto. }
  destruct (status r =? 403)%Z; [|eauto].
  destruct (callToLowerCase (errorMessageOf r)) as [lowered|e]; simpl; [|eauto].
  destruct (includes "quota" lowered); eauto.
Qed.

Lemma settle_throws (r : Response) (e : Thrown) :
  ok r = false -> handleErrorResponse r = Throw e -> settle (Resolve r) = Throw e.
Proof.
  intros Hok He. unfold settle. now rewrite Hok, He.
Qed.

Lemma ok_false_outside (r : Response) :
  (status r < 200 \/ 299 < status r)%Z -> ok r = false.
Proof.
  intros H. unfold ok. apply andb_false_iff.
  destruct H; [left; apply Z.leb_gt|right; apply Z.leb_gt]; lia.
Qed.

(** A retryable failure throws an error that the [catch] block keeps, and
    whose message is the message of the failure. *)
Lemma settle_retryable (o : FetchOutcome) :
  retryableFailure o ->
  exists e, settle o = Throw e /\ rethrown e = false /\ messageOf e = failureMessage o.
Proof.
  destruct o as [r|name message]; simpl; intros H.
  - exists (APIError (toString (errorMessageOf r)) (Some (status r))).
    split; [|split; [|reflexivity]].
    + rewrite (ok_false_outside r) by lia.
      rewrite handleErrorResponse_other by lia. reflexivity.
    + apply andb_false_iff. right. apply Z.ltb_ge. lia.
  - eauto.
Qed.

(* ===================================================================== *)
(** ** The three ways [makeRequest] ends *)
(* ===================================================================== *)

Section MakeRequest.

Variable transport : Transport.
Variable self : BrainusAI.
Variables method endpoint : string.
Variable body : option (gmap string BodyValue).

(** Every attempt throws an error of the retried kinds: the loop runs
    [maxRetries + 1] times and the final error is thrown. *)
Lemma makeRequest_exhausted (w : Trace) :
  (0 <= maxRetries self)%Z ->
  (0 <= timeout self <= 4294967295)%Z ->
  (forall n, exists e,
     settle (transport (requestOf self method endpoint body) n) = Throw e /\
     rethrown e = false) ->
  makeRequest transport self method endpoint body w =
  (Throw (APIError
            (exhaustedMessage self
               (lastErrorAfter transport (requestOf self method endpoint body)
                  (fetchCount w) (Z.to_nat (maxRetries self + 1)) None))
            None),
   w ++ retrySchedule (requestOf self method endpoint body) (Z.to_nat (maxRetries self))).
Proof.
  intros Hpos Hrange Hfail. unfold makeRequest.
  rewrite <- (Nat.add_0_r (Z.to_nat (maxRetries self + 1))) at 1.
  rewrite retryLoop_failures; [|exact Hrange|intros i _; apply Hfail].
  cbn [retryLoop]. unfold throw.
  now rewrite failedTrace_exhausted.
Qed.

(** [N] attempts throw errors of the retried kinds and the next one
    returns: the call returns after [N + 1] attempts. *)
Lemma makeRequest_recovers (w : Trace) (N : nat) (v : Value) :
  (Z.of_nat N <= maxRetries self)%Z ->
  (0 <= timeout self <= 4294967295)%Z ->
  (forall i, (i < N)%nat ->
     exists e,
       settle (transport (requestOf self method endpoint body) (fetchCount w + i)) = Throw e /\
       rethrown e = false) ->
  settle (transport (requestOf self method endpoint body) (fetchCount w + N)) = Ok v ->
  makeRequest transport self method endpoint body w =
  (Ok v, w ++ retrySchedule (requestOf self method endpoint body) N).
Proof.
  intros HN Hrange Hfail Hok. unfold makeRequest.
  replace (Z.to_nat (maxRetries self + 1))
    with (N + S (Z.to_nat (maxRetries self) - N))%nat by lia.
  rewrite retryLoop_failures; [|exact Hrange|exact Hfail].
  rewrite (retryLoop_success _ _ _ _ _ _ _ v).
  - pose proof (failedTrace_schedule self (requestOf self method endpoint body) N 0) as Hs.
    change (Z.of_nat 0) with 0%Z in Hs. rewrite Hs by (simpl; lia).
    unfold retrySchedule. now rewrite app_assoc.
  - exact Hrange.
  - now rewrite fetchCount_app, fetchCount_failedTrace.
Qed.

(** The first attempt throws an error of the kinds thrown again: one call. *)
Lemma makeRequest_rethrows (w : Trace) (e : Thrown) :
  (0 <= maxRetries self)%Z ->
  (0 <= timeout self <= 4294967295)%Z ->
  settle (transport (requestOf self method endpoint body) (fetchCount w)) = Throw e ->
  rethrown e = true ->
  makeRequest transport self method endpoint body w =
  (Throw e, w ++ [EFetch (requestOf self method endpoint body)]).
Proof.
  intros Hpos Hrange He Hre. unfold makeRequest.
  replace (Z.to_nat (maxRetries self + 1)) with (S (Z.to_nat (maxRetries self))) by lia.
  now apply retryLoop_rethrown.
Qed.

(** [N] attempts throw errors of the retried kinds and the next one throws
    an error of the kinds thrown again: its call is the last. *)
Lemma makeRequest_rethrows_after (w : Trace) (N : nat) (e : Thrown) :
  (Z.of_nat N <= maxRetries self)%Z ->
  (0 <= timeout self <= 4294967295)%Z ->
  (forall i, (i < N)%nat ->
     exists e_i,
       settle (transport (requestOf self method endpoint body) (fetchCount w + i)) =
         Throw e_i /\
       rethrown e_i = false) ->
  settle (transport (requestOf self method endpoint body) (fetchCount w + N)) = Throw e ->
  rethrown e = true ->
  makeRequest transport self method endpoint body w =
  (Throw e, w ++ retrySchedule (requestOf self method endpoint body) N).
Proof.
  intros HN Hrange Hfail He Hre. unfold makeRequest.
  replace (Z.to_nat (maxRetries self + 1))
    with (N + S (Z.to_nat (maxRetries self) - N))%nat by lia.
  rewrite retryLoop_failures; [|exact Hrange|exact Hfail].
  rewrite (retryLoop_rethrown _ _ _ _ _ _ _ e).
  - pose proof (failedTrace_schedule self (requestOf self method endpoint body) N 0) as Hs.
    change (Z.of_nat 0) with 0%Z in Hs. rewrite Hs by (simpl; lia).
    unfold retrySchedule. now rewrite app_assoc.
  - exact Hrange.
  - now rewrite fetchCount_app, fetchCount_failedTrace.
  - exact Hre.
Qed.

End MakeRequest.

Lemma rethrown_raisedAgain (e : Thrown) : rethrown e = true <-> raisedAgain e.
Proof.
  unfold raisedAgain. split.
  - destruct e as [m|m ra|m|m [c|]|nm m]; cbn [rethrown]; intros H;
      try discriminate H; eauto.
    apply andb_true_iff in H as [Hnz Hlt].
    apply negb_true_iff, Z.eqb_neq in Hnz. apply Z.ltb_lt in Hlt.
    right. right. eauto.
  - intros [[m ->]|[[m ->]|(m & c & -> & Hnz & Hlt)]]; [reflexivity..|].
    cbn [rethrown]. apply andb_true_iff. split.
    + now apply negb_true_iff, Z.eqb_neq.
    + now apply Z.ltb_lt.
Qed.

Lemma fetchCount_failedAttempts (req : Request) (n : nat) :
  fetchCount (failedAttempts req n) = n.
Proof.
  unfold failedAttempts. rewrite <- (Nat.sub_0_r n) at 2.
  generalize 0%nat at 1. induction n as [|n IH]; intros k; [reflexivity|].
  cbn [seq flat_map]. change (EFetch req :: ?l) with ([EFetch req] ++ l).
  rewrite !fetchCount_app, IH. cbn. lia.
Qed.

Lemma fetchCount_retrySchedule (req : Request) (n : nat) :
  fetchCount (retrySchedule req n) = (n + 1)%nat.
Proof.
  unfold retrySchedule. rewrite fetchCount_app. f_equal.
  generalize 0%nat. induction n as [|n IH]; intros k; [reflexivity|].
  cbn [seq flat_map]. rewrite fetchCount_app, IH. reflexivity.
Qed.

Lemma sleeps_retrySchedule (req : Request) (n : nat) :
  sleeps (retrySchedule req n) =
  List.map (fun k => Z.min (1000 * 2 ^ Z.of_nat k) 10000) (seq 0 n).
Proof.
  unfold retrySchedule. rewrite sleeps_app. simpl (sleeps [EFetch req]).
  rewrite app_nil_r.
  generalize 0%nat. induction n as [|n IH]; intros k; [reflexivity|].
  cbn [seq flat_map List.map]. rewrite sleeps_app, IH. reflexivity.
Qed.

(* ===================================================================== *)
(** ** The retry loop *)
(* ===================================================================== *)

(** C1.  For a client whose retry count is not negative and whose timeout
    the abort signal accepts: when the transport fails with a retryable
    error (a rejected [fetch], or a status of 500 or more) on every
    attempt, [makeRequest] calls it exactly [maxRetries + 1] times and then throws an [APIError]
    without status code whose message is
    "Request failed after <maxRetries + 1> attempts: <message of the last
    failure>". *)
Theorem makeRequest_exhausts_retries
    (transport : Transport) (self : BrainusAI) (method endpoint : string)
    (body : option (gmap string BodyValue)) (w : Trace) :
  let req := requestOf self method endpoint body in
  (0 <= maxRetries self)%Z ->
  (0 <= timeout self <= 4294967295)%Z ->
  (forall n, retryableFailure (transport req n)) ->
  exists w',
    makeRequest transport self method endpoint body w =
    (Throw (APIError
              ("Request failed after " +:+ numToString (maxRetries self + 1) +:+
               " attempts: " +:+
               failureMessage (transport req (fetchCount w + Z.to_nat (maxRetries self))))
              None),
     w')
    /\ fetchCount w' = (fetchCount w + Z.to_nat (maxRetries self + 1))%nat.
Proof.
  intros req Hpos Hrange Hfail.
  exists (w ++ retrySchedule req (Z.to_nat (maxRetries self))). split.
  - unfold req. rewrite makeRequest_exhausted; [|exact Hpos|exact Hrange|].
    + fold req. do 3 f_equal. unfold exhaustedMessage. do 3 f_equal.
      replace (Z.to_nat (maxRetries self + 1)) with (S (Z.to_nat (maxRetries self))) by lia.
      cbn [lastErrorAfter].
      destruct (settle_retryable _ (Hfail (fetchCount w + Z.to_nat (maxRetries self))%nat))
        as (e & He & _ & Hm).
      now rewrite He, Hm.
    + intros n. destruct (settle_retryable _ (Hfail n)) as (e & He & Hre & _). eauto.
  - rewrite fetchCount_app, fetchCount_retrySchedule. lia.
Qed.

Lemma makeRequest_exhausts_retries_witness :
  exists w',
    makeRequest (always serviceUnavailable) sampleClient "GET" "/api/v1/dev/usage" None [] =
    (Throw (APIError "Request failed after 4 attempts: upstream down" None), w')
    /\ fetchCount w' = 4%nat.
Proof.
  apply (makeRequest_exhausts_retries (always serviceUnavailable) sampleClient
           "GET" "/api/v1/dev/usage" None []).
  - simpl. lia.
  - simpl. lia.
  - intros n. simpl. lia.
Defined.

(** C2.  For a client whose retry count is not negative and whose timeout
    the abort signal accepts, and for every attempt [N <= maxRetries]
    that the loop reaches because the attempts before it threw errors of
    other kinds: when the error thrown in attempt [N] is an
    [AuthenticationError], a [QuotaExceededError], or an [APIError]
    carrying a status code below 500 (a status code, so not the falsy
    [0]), [makeRequest] throws it again and the call of attempt [N] is the
    last call of the transport.  And when the transport answers 401 to
    [query], [query] throws an [AuthenticationError] after exactly one
    call. *)
Theorem makeRequest_rethrows_client_errors
    (transport : Transport) (self : BrainusAI) :
  (0 <= maxRetries self)%Z ->
  (0 <= timeout self <= 4294967295)%Z ->
  (forall method endpoint body w N e,
     let req := requestOf self method endpoint body in
     (Z.of_nat N <= maxRetries self)%Z ->
     (forall i, (i < N)%nat ->
        exists e_i,
          fst (attemptOnce transport req (w ++ failedAttempts req i)) = Throw e_i /\
          ~ raisedAgain e_i) ->
     fst (attemptOnce transport req (w ++ failedAttempts req N)) = Throw e ->
     raisedAgain e ->
     makeRequest transport self method endpoint body w =
       (Throw e, w ++ failedAttempts req N ++ [EFetch req])
     /\ fetchCount (w ++ failedAttempts req N ++ [EFetch req]) = (fetchCount w + N + 1)%nat)
  /\
  (forall request w r,
     let req := requestOf self "POST" "/api/v1/dev/query" (Some (queryBody request)) in
     transport req (fetchCount w) = Resolve r ->
     status r = 401%Z ->
     query transport self request w =
       (Throw (AuthenticationError (toString (errorMessageOf r))), w ++ [EFetch req])
     /\ fetchCount (w ++ [EFetch req]) = S (fetchCount w)).
Proof.
  intros Hpos Hrange. split.
  - intros method endpoint body w N e req HN Hearlier He Hkind.
    assert (Hreq : (0 <= signalTimeout req <= 4294967295)%Z) by exact Hrange.
    assert (Hcount : forall i, fetchCount (w ++ failedAttempts req i) = (fetchCount w + i)%nat).
    { intros i. rewrite fetchCount_app. f_equal. apply fetchCount_failedAttempts. }
    split.
    + change (w ++ failedAttempts req N ++ [EFetch req]) with (w ++ retrySchedule req N).
      apply makeRequest_rethrows_after; [exact HN|exact Hrange| | |].
      * intros i Hi. destruct (Hearlier i Hi) as (e_i & He_i & Hnot).
        rewrite (attemptOnce_run transport req _ Hreq), Hcount in He_i. cbn [fst] in He_i.
        exists e_i. split; [exact He_i|].
        destruct (rethrown e_i) eqn:Hre; [|reflexivity].
        destruct Hnot. now apply rethrown_raisedAgain.
      * rewrite (attemptOnce_run transport req _ Hreq), Hcount in He. exact He.
      * now apply rethrown_raisedAgain.
    + rewrite app_assoc, fetchCount_app, Hcount. cbn. lia.
  - intros request w r req Hr H401. split.
    + unfold query, bind.
      rewrite (makeRequest_rethrows transport self _ _ _ w
                 (AuthenticationError (toString (errorMessageOf r)))).
      * reflexivity.
      * exact Hpos.
      * exact Hrange.
      * fold req. rewrite Hr. apply settle_throws.
        -- apply ok_false_outside. lia.
        -- now apply handleErrorResponse_401.
      * reflexivity.
    + rewrite fetchCount_app. change (fetchCount [EFetch req]) with 1%nat. lia.
Qed.

Lemma makeRequest_rethrows_client_errors_witness :
  makeRequest (answersThen 1 serviceUnavailable unauthorized) sampleClient
    "GET" "/api/v1/dev/usage" None [] =
  (Throw (AuthenticationError "Invalid API key"),
   let req := requestOf sampleClient "GET" "/api/v1/dev/usage" None in
   [EFetch req; ESleep 1000; EFetch req])
  /\ query (always unauthorized) sampleClient sampleQuery [] =
     (Throw (AuthenticationError "Invalid API key"), [EFetch sampleQueryRequest]).
Proof.
  assert (Hpos : (0 <= maxRetries sampleClient)%Z) by (unfold sampleClient; simpl; lia).
  assert (Hrange : (0 <= timeout sampleClient <= 4294967295)%Z)
    by (unfold sampleClient; simpl; lia).
  split.
  - apply (proj1 (makeRequest_rethrows_client_errors
                    (answersThen 1 serviceUnavailable unauthorized) sampleClient Hpos Hrange)
             "GET" "/api/v1/dev/usage" None [] 1%nat
             (AuthenticationError "Invalid API key")).
    + simpl. lia.
    + intros i Hi. destruct i as [|i]; [|lia].
      exists (APIError "upstream down" (Some 503%Z)). split; [reflexivity|].
      intros [[m H]|[[m H]|(m & c & H & _ & Hc)]]; try discriminate H.
      injection H as _ <-. lia.
    + reflexivity.
    + left. exists "Invalid API key". reflexivity.
  - apply (proj2 (makeRequest_rethrows_client_errors (always unauthorized) sampleClient
                    Hpos Hrange)
             sampleQuery [] unauthorized);
      reflexivity.
Defined.

(** C3.  The transport answers every call with 429 and [Retry-After: 5]:
    the error mapping builds a [RateLimitError] whose retry-after is 5,
    but the [catch] block of [makeRequest] does not throw it again; with
    the default configuration the transport is called four times, with the
    three backoff waits, and the caller gets the [APIError] of the
    exhausted retries. *)
Theorem rate_limit_429_is_retried :
  handleErrorResponse rateLimited =
    Throw (RateLimitError "Rate limit exceeded" (Some (Finite 5)))
  /\ rethrown (RateLimitError "Rate limit exceeded" (Some (Finite 5))) = false
  /\ constructor sampleConfig = Ok sampleClient
  /\ query (always rateLimited) sampleClient sampleQuery [] =
       (Throw (APIError "Request failed after 4 attempts: Rate limit exceeded" None),
        [EFetch sampleQueryRequest; ESleep 1000;
         EFetch sampleQueryRequest; ESleep 2000;
         EFetch sampleQueryRequest; ESleep 4000;
         EFetch sampleQueryRequest]).
Proof.
  repeat split; vm_compute; reflexivity.
Qed.

(** Whatever the configuration, a transport that always answers 429 is
    called [maxRetries + 1] times. *)
Lemma makeRequest_429_exhausts
    (transport : Transport) (self : BrainusAI) (method endpoint : string)
    (body : option (gmap string BodyValue)) (w : Trace) :
  let req := requestOf self method endpoint body in
  (0 <= maxRetries self)%Z ->
  (0 <= timeout self <= 4294967295)%Z ->
  (forall n, exists r, transport req n = Resolve r /\ status r = 429%Z) ->
  exists message,
    makeRequest transport self method endpoint body w =
    (Throw (APIError message None), w ++ retrySchedule req (Z.to_nat (maxRetries self))).
Proof.
  intros req Hpos Hrange H429. eexists. apply makeRequest_exhausted; [exact Hpos|exact Hrange|].
  intros n. destruct (H429 n) as (r & Hr & Hs). fold req. rewrite Hr.
  eexists. split.
  - apply settle_throws; [apply ok_false_outside; lia|].
    now apply handleErrorResponse_429.
  - reflexivity.
Qed.

(** C4.  For a client whose retry count is not negative and whose timeout
    the abort signal accepts.  The wait after the failed attempt [k] is
    [min(1000 * 2^k, 10000)] ms: 1 s, 2 s, 4 s, 8 s and then 10 s.  When the transport fails on its
    first [N <= maxRetries] calls and then answers, [makeRequest] returns
    after [N + 1] calls, with these waits for [k = 0 .. N-1] between them.
    Whatever the later calls do, [N <= maxRetries] failed attempts are
    each followed by their wait and by one more call.  When every attempt
    fails, the trace ends with the last call: no wait follows it. *)
Theorem backoff_between_attempts
    (transport : Transport) (self : BrainusAI) (method endpoint : string)
    (body : option (gmap string BodyValue)) (w : Trace) :
  let req := requestOf self method endpoint body in
  (0 <= maxRetries self)%Z ->
  (0 <= timeout self <= 4294967295)%Z ->
  (forall N r v,
     (Z.of_nat N <= maxRetries self)%Z ->
     (forall i, (i < N)%nat -> retryableFailure (transport req (fetchCount w + i))) ->
     transport req (fetchCount w + N) = Resolve r ->
     ok r = true ->
     json r = Parsed v ->
     makeRequest transport self method endpoint body w = (Ok v, w ++ retrySchedule req N))
  /\
  (forall N,
     (Z.of_nat N <= maxRetries self)%Z ->
     (forall i, (i < N)%nat -> retryableFailure (transport req (fetchCount w + i))) ->
     exists t,
       snd (makeRequest transport self method endpoint body w) =
       (w ++ retrySchedule req N) ++ t)
  /\
  ((forall n, retryableFailure (transport req n)) ->
   snd (makeRequest transport self method endpoint body w) =
   w ++ retrySchedule req (Z.to_nat (maxRetries self)))
  /\
  (forall N,
     fetchCount (retrySchedule req N) = (N + 1)%nat /\
     sleeps (retrySchedule req N) =
       List.map (fun k => Z.min (1000 * 2 ^ Z.of_nat k) 10000) (seq 0 N) /\
     last (retrySchedule req N) = Some (EFetch req))
  /\
  List.map backoff [0; 1; 2; 3; 4; 5]%Z = [1000; 2000; 4000; 8000; 10000; 10000]%Z.
Proof.
  intros req Hpos Hrange. repeat split.
  - intros N r v HN Hfail Hr Hok Hjson. apply makeRequest_recovers.
    + exact HN.
    + exact Hrange.
    + intros i Hi. destruct (settle_retryable _ (Hfail i Hi)) as (e & He & Hre & _).
      eauto.
    + fold req. rewrite Hr. unfold settle, responseJson. now rewrite Hok, Hjson.
  - intros N HN Hfail. unfold makeRequest. fold req.
    replace (Z.to_nat (maxRetries self + 1))
      with (N + S (Z.to_nat (maxRetries self) - N))%nat by lia.
    rewrite retryLoop_failures; [|exact Hrange|].
    + destruct (retryLoop_first_call transport self req (Z.to_nat (maxRetries self) - N)
                  (0 + Z.of_nat N)%Z (lastErrorAfter transport req (fetchCount w) N None)
                  (w ++ failedTrace self req N 0) Hrange) as (t & Ht).
      exists t. rewrite Ht.
      pose proof (failedTrace_schedule self req N 0) as Hs.
      change (Z.of_nat 0) with 0%Z in Hs. rewrite Hs by (simpl; lia).
      unfold retrySchedule. now rewrite !app_assoc.
    + intros i Hi. destruct (settle_retryable _ (Hfail i Hi)) as (e & He & Hre & _).
      eauto.
  - intros Hfail. unfold req.
    rewrite makeRequest_exhausted; [reflexivity|exact Hpos|exact Hrange|].
    intros n. destruct (settle_retryable _ (Hfail n)) as (e & He & Hre & _). eauto.
  - apply fetchCount_retrySchedule.
  - apply sleeps_retrySchedule.
  - unfold retrySchedule. apply last_snoc.
Qed.

Lemma backoff_between_attempts_witness :
  makeRequest (failsThen 2 answered) sampleClient "POST" "/api/v1/dev/query" None [] =
  (Ok rawAnswer,
   let req := requestOf sampleClient "POST" "/api/v1/dev/query" None in
   [EFetch req; ESleep 1000; EFetch req; ESleep 2000; EFetch req]).
Proof.
  assert (Hpos : (0 <= maxRetries sampleClient)%Z) by (unfold sampleClient; simpl; lia).
  assert (Hrange : (0 <= timeout sampleClient <= 4294967295)%Z)
    by (unfold sampleClient; simpl; lia).
  apply (proj1 (backoff_between_attempts (failsThen 2 answered) sampleClient
                  "POST" "/api/v1/dev/query" None [] Hpos Hrange) 2%nat answered rawAnswer).
  - unfold sampleClient; simpl; lia.
  - intros i Hi. unfold failsThen. simpl.
    destruct i as [|[|i]]; simpl; [exact I|exact I|lia].
  - reflexivity.
  - reflexivity.
  - reflexivity.
Defined.

(** C10.  For a client whose retry count is not negative and whose
    timeout the abort signal accepts.  A success status with a body that
    is not JSON makes the attempt throw the parse error, which is none of the errors thrown again: when
    a retry is left, the loop waits its first backoff and goes on with the
    next attempt.  When the transport answers every call this way,
    [makeRequest] throws, after [maxRetries + 1] calls, the [APIError] of
    the exhausted retries, without status code, instead of the parse
    error. *)
Theorem unparsable_success_is_retried
    (transport : Transport) (self : BrainusAI) (method endpoint : string)
    (body : option (gmap string BodyValue)) (w : Trace) :
  let req := requestOf self method endpoint body in
  (0 <= maxRetries self)%Z ->
  (0 <= timeout self <= 4294967295)%Z ->
  (forall w0 r parseError,
     transport req (fetchCount w0) = Resolve r ->
     ok r = true ->
     json r = Unparsable parseError ->
     attemptOnce transport req w0 =
       (Throw (NativeError "SyntaxError" parseError), w0 ++ [EFetch req])
     /\ rethrown (NativeError "SyntaxError" parseError) = false)
  /\
  (forall r parseError,
     transport req (fetchCount w) = Resolve r ->
     ok r = true ->
     json r = Unparsable parseError ->
     (1 <= maxRetries self)%Z ->
     makeRequest transport self method endpoint body w =
     retryLoop transport self req (Z.to_nat (maxRetries self)) 1
       (Some (NativeError "SyntaxError" parseError))
       (w ++ [EFetch req; ESleep 1000]))
  /\
  (forall (statusOf : nat -> Z) (textOf : nat -> string)
          (headersOf : nat -> list (string * string)) (parseError : nat -> string),
     (forall n, (200 <= statusOf n <= 299)%Z) ->
     (forall n, transport req n =
                Resolve (mkResponse (statusOf n) (textOf n) (headersOf n)
                           (Unparsable (parseError n)))) ->
     makeRequest transport self method endpoint body w =
     (Throw (APIError
               ("Request failed after " +:+ numToString (maxRetries self + 1) +:+
                " attempts: " +:+ parseError (fetchCount w + Z.to_nat (maxRetries self)))
               None),
      w ++ retrySchedule req (Z.to_nat (maxRetries self)))).
Proof.
  intros req Hpos Hrange.
  assert (Hsettle : forall n r parseError,
             transport req n = Resolve r -> ok r = true -> json r = Unparsable parseError ->
             settle (transport req n) = Throw (NativeError "SyntaxError" parseError)).
  { intros n r parseError Hr Hok Hjson. rewrite Hr. unfold settle, responseJson.
    now rewrite Hok, Hjson. }
  split; [|split].
  - intros w0 r parseError Hr Hok Hjson. split; [|reflexivity].
    now rewrite attemptOnce_run, (Hsettle _ r parseError Hr Hok Hjson).
  - intros r parseError Hr Hok Hjson Hretry. unfold makeRequest. fold req.
    replace (Z.to_nat (maxRetries self + 1)) with (1 + Z.to_nat (maxRetries self))%nat by lia.
    rewrite retryLoop_failures; [|exact Hrange|].
    + cbn [lastErrorAfter failedTrace]. rewrite Nat.add_0_r.
      rewrite (Hsettle _ r parseError Hr Hok Hjson).
      replace (0 <? maxRetries self)%Z with true by (symmetry; apply Z.ltb_lt; lia).
      reflexivity.
    + intros i Hi. replace i with 0%nat by lia. rewrite Nat.add_0_r.
      rewrite (Hsettle _ r parseError Hr Hok Hjson). eauto.
  - intros statusOf textOf headersOf parseError Hstatus Htransport.
    assert (Hall : forall n,
               settle (transport req n) = Throw (NativeError "SyntaxError" (parseError n))).
    { intros n. apply (Hsettle n _ _ (Htransport n)); [|reflexivity].
      unfold ok. cbn [status]. specialize (Hstatus n).
      apply andb_true_iff. split; apply Z.leb_le; lia. }
    unfold req. rewrite makeRequest_exhausted; [|exact Hpos|exact Hrange|].
    + fold req. do 3 f_equal. unfold exhaustedMessage. do 3 f_equal.
      replace (Z.to_nat (maxRetries self + 1)) with (S (Z.to_nat (maxRetries self))) by lia.
      cbn [lastErrorAfter]. now rewrite Hall.
    + intros n. fold req. rewrite Hall. eauto.
Qed.

Lemma unparsable_success_is_retried_witness :
  makeRequest (always notJson) sampleClient "GET" "/api/v1/dev/plans" None [] =
  (Throw (APIError
            "Request failed after 4 attempts: Unexpected token < in JSON at position 0"
            None),
   let req := requestOf sampleClient "GET" "/api/v1/dev/plans" None in
   [EFetch req; ESleep 1000; EFetch req; ESleep 2000; EFetch req; ESleep 4000; EFetch req]).
Proof.
  assert (Hpos : (0 <= maxRetries sampleClient)%Z) by (unfold sampleClient; simpl; lia).
  assert (Hrange : (0 <= timeout sampleClient <= 4294967295)%Z)
    by (unfold sampleClient; simpl; lia).
  assert (Hstatus : forall n : nat, (200 <= 200 <= 299)%Z) by (intros _; lia).
  apply (proj2 (proj2 (unparsable_success_is_retried (always notJson) sampleClient
                         "GET" "/api/v1/dev/plans" None [] Hpos Hrange))
           (fun _ => 200%Z) (fun _ => "OK") (fun _ => [])
           (fun _ => "Unexpected token < in JSON at position 0")
           Hstatus (fun _ => eq_refl)).
Defined.

(* ===================================================================== *)
(** ** The error mapping *)
(* ===================================================================== *)

Lemma errorMessageOf_parsed (r : Response) (data : Value) :
  json r = Parsed data ->
  errorMessageOf r =
  if truthy (field "detail" data) then field "detail" data
  else if truthy (field "message" data) then field "message" data
  else Str (statusText r).
Proof.
  intros Hjson. unfold errorMessageOf, responseJson. rewrite Hjson. cbn [bindR].
  destruct data; cbn [getProp bindR field truthy]; try reflexivity.
  destruct (truthy (default Undefined (member "detail" members))); [reflexivity|].
  destruct (truthy (default Undefined (member "message" members))); reflexivity.
Qed.

(** C5.  The error mapping throws for every response and never returns.
    Its message is the body's [detail] when that is truthy, else the body's
    [message] when that is truthy, else the status text, which is also the
    message when the body is not JSON.  401 gives an [AuthenticationError]
    and 429 a [RateLimitError]; for a message that is a string, 400 gives
    [APIError(400)] with the clarified message when the message contains
    "No store_id provided and no default store configured" and with the
    raw message otherwise, 403 gives a [QuotaExceededError] when the
    lowercased message contains "quota" and [APIError(403)] otherwise; any
    other status gives an [APIError] with that status. *)
Theorem handleErrorResponse_mapping (r : Response) :
  (exists e, handleErrorResponse r = Throw e)
  /\ (forall parseError,
        json r = Unparsable parseError -> errorMessageOf r = Str (statusText r))
  /\ (forall data,
        json r = Parsed data ->
        (truthy (field "detail" data) = true -> errorMessageOf r = field "detail" data) /\
        (truthy (field "detail" data) = false ->
         truthy (field "message" data) = true -> errorMessageOf r = field "message" data) /\
        (truthy (field "detail" data) = false ->
         truthy (field "message" data) = false -> errorMessageOf r = Str (statusText r)))
  /\ (status r = 401%Z ->
      handleErrorResponse r = Throw (AuthenticationError (toString (errorMessageOf r))))
  /\ (status r = 429%Z ->
      handleErrorResponse r =
      Throw (RateLimitError (toString (errorMessageOf r)) (retryAfterOf r)))
  /\ (forall s,
        errorMessageOf r = Str s ->
        (status r = 400%Z ->
         includes "No store_id provided and no default store configured" s = true ->
         handleErrorResponse r =
         Throw (APIError
                  "No store_id provided and no default store configured. Please provide a store_id in your request."
                  (Some 400%Z))) /\
        (status r = 400%Z ->
         includes "No store_id provided and no default store configured" s = false ->
         handleErrorResponse r = Throw (APIError s (Some 400%Z))) /\
        (status r = 403%Z ->
         includes "quota" (toLowerCase s) = true ->
         handleErrorResponse r = Throw (QuotaExceededError s)) /\
        (status r = 403%Z ->
         includes "quota" (toLowerCase s) = false ->
         handleErrorResponse r = Throw (APIError s (Some 403%Z))))
  /\ (status r <> 401%Z -> status r <> 429%Z -> status r <> 400%Z -> status r <> 403%Z ->
      handleErrorResponse r =
      Throw (APIError (toString (errorMessageOf r)) (Some (status r)))).
Proof.
  split; [apply handleErrorResponse_throws|].
  split.
  { intros parseError Hjson. unfold errorMessageOf, responseJson. now rewrite Hjson. }
  split.
  { intros data Hjson. rewrite (errorMessageOf_parsed r data Hjson).
    repeat split.
    - now intros ->.
    - now intros -> ->.
    - now intros -> ->. }
  split; [apply handleErrorResponse_401|].
  split; [apply handleErrorResponse_429|].
  split; [|apply handleErrorResponse_other].
  intros s Hs. unfold handleErrorResponse. rewrite Hs.
  cbn [callIncludes callToLowerCase bindR toString].
  repeat split; intros Hstatus Hcontains; rewrite Hstatus; cbn [Z.eqb Pos.eqb];
    unfold noStoreId, noStoreIdClarified; now rewrite Hcontains.
Qed.

Lemma handleErrorResponse_mapping_witness :
  handleErrorResponse quotaExceeded = Throw (QuotaExceededError "Monthly Quota exceeded").
Proof.
  destruct (handleErrorResponse_mapping quotaExceeded) as (_ & _ & _ & _ & _ & Hstring & _).
  destruct (Hstring "Monthly Quota exceeded" eq_refl) as (_ & _ & Hquota & _).
  exact (Hquota eq_refl eq_refl).
Defined.

(** C5, as first stated, fails where the message is not a string: for a
    400 whose [detail] is the number 123 the message is that number, the
    call of [includes] on it is a [TypeError], and no [APIError] is
    thrown. *)
Lemma handleErrorResponse_mapping_counterexample :
  errorMessageOf numericDetail = Num 123
  /\ handleErrorResponse numericDetail =
     Throw (NativeError "TypeError" "includes is not a function")
  /\ ~ (exists message statusCode,
          handleErrorResponse numericDetail = Throw (APIError message statusCode)).
Proof.
  split; [reflexivity|]. split; [reflexivity|].
  intros (message & statusCode & H). discriminate H.
Qed.

(* ===================================================================== *)
(** ** Construction *)
(* ===================================================================== *)

(** C6.  Construction throws the error of the invalid key when the key is
    missing and when it does not start with "brainus_"; with a key of that
    prefix and no other field it returns the client with base URL
    "https://api.brainus.lk", timeout 30000 and 3 retries.  The constructor
    is a function of the configuration alone: run as a step of a
    computation, it leaves the trace of transport calls as it was. *)
Theorem constructor_validates_key :
  (forall config,
     BrainusAIConfig.apiKey config = None -> constructor config = Throw invalidKey)
  /\ (forall config key,
        BrainusAIConfig.apiKey config = Some key ->
        String.prefix "brainus_" key = false ->
        constructor config = Throw invalidKey)
  /\ (forall key,
        String.prefix "brainus_" key = true ->
        constructor (BrainusAIConfig.mk (Some key) None None None) =
        Ok {| apiKey := key;
              baseUrl := "https://api.brainus.lk";
              timeout := 30000;
              maxRetries := 3 |})
  /\ (forall config (w : Trace), snd (liftR (constructor config) w) = w)
  /\ invalidKey = NativeError "Error" "Invalid API key format. Expected format: brainus_...".
Proof.
  repeat split.
  - intros config Hkey. unfold constructor. now rewrite Hkey.
  - intros config key Hkey Hprefix. unfold constructor. rewrite Hkey, Hprefix.
    now rewrite orb_true_r.
  - intros key Hprefix. unfold constructor. cbn [BrainusAIConfig.apiKey].
    rewrite Hprefix. destruct key; [discriminate Hprefix|reflexivity].
Qed.

Lemma constructor_validates_key_witness :
  constructor (BrainusAIConfig.mk (Some "sk_live_test") None None None) = Throw invalidKey
  /\ constructor sampleConfig = Ok sampleClient.
Proof.
  destruct constructor_validates_key as (_ & Hbad & Hgood & _).
  split.
  - exact (Hbad (BrainusAIConfig.mk (Some "sk_live_test") None None None)
             "sk_live_test" eq_refl eq_refl).
  - exact (Hgood "brainus_test" eq_refl).
Defined.

(* ===================================================================== *)
(** ** The typed operations *)
(* ===================================================================== *)

(** C7.  The body that [query] builds holds the key "query" with the query
    text; it holds "store_id", "filters" and "model" exactly when the
    caller gave [storeId], [filters] and [model], with the value given; it
    holds no other key.  Every request that [query] hands to the transport
    carries this body; and for a client whose retry count is not negative
    and whose timeout the abort signal accepts, the first thing [query]
    does is to hand the transport a POST request with this body. *)
Theorem query_body_keys (request : QueryRequest.t) :
  let b := queryBody request in
  b !! "query" = Some (BString (QueryRequest.query request))
  /\ (is_Some (b !! "store_id") <-> is_Some (QueryRequest.storeId request))
  /\ (is_Some (b !! "filters") <-> is_Some (QueryRequest.filters request))
  /\ (is_Some (b !! "model") <-> is_Some (QueryRequest.model request))
  /\ b !! "store_id" = BString <$> QueryRequest.storeId request
  /\ b !! "filters" = BFilters <$> QueryRequest.filters request
  /\ b !! "model" = BString <$> QueryRequest.model request
  /\ (forall key,
        is_Some (b !! key) ->
        key = "query" \/ key = "store_id" \/ key = "filters" \/ key = "model")
  /\ (forall (transport : Transport) (self : BrainusAI) (w : Trace),
        exists t,
          snd (query transport self request w) = w ++ t /\
          forall req', In (EFetch req') t ->
            body req' = Some b /\ method req' = "POST" /\
            url req' = baseUrl self +:+ "/api/v1/dev/query")
  /\ (forall (transport : Transport) (self : BrainusAI) (w : Trace),
        (0 <= maxRetries self)%Z ->
        (0 <= timeout self <= 4294967295)%Z ->
        exists t,
          snd (query transport self request w) =
          w ++ EFetch (requestOf self "POST" "/api/v1/dev/query" (Some b)) :: t).
Proof.
  intros b.
  assert (Hstore : b !! "store_id" = BString <$> QueryRequest.storeId request).
  { unfold b, queryBody.
    destruct (QueryRequest.storeId request), (QueryRequest.filters request),
      (QueryRequest.model request); by simplify_map_eq. }
  assert (Hfilters : b !! "filters" = BFilters <$> QueryRequest.filters request).
  { unfold b, queryBody.
    destruct (QueryRequest.storeId request), (QueryRequest.filters request),
      (QueryRequest.model request); by simplify_map_eq. }
  assert (Hmodel : b !! "model" = BString <$> QueryRequest.model request).
  { unfold b, queryBody.
    destruct (QueryRequest.storeId request), (QueryRequest.filters request),
      (QueryRequest.model request); by simplify_map_eq. }
  split.
  { unfold b, queryBody.
    destruct (QueryRequest.storeId request), (QueryRequest.filters request),
      (QueryRequest.model request); by simplify_map_eq. }
  split; [rewrite Hstore; apply fmap_is_Some|].
  split; [rewrite Hfilters; apply fmap_is_Some|].
  split; [rewrite Hmodel; apply fmap_is_Some|].
  split; [exact Hstore|]. split; [exact Hfilters|]. split; [exact Hmodel|].
  split.
  { intros key [v Hv]. unfold b, queryBody in Hv.
    destruct (QueryRequest.storeId request), (QueryRequest.filters request),
      (QueryRequest.model request);
      repeat (apply lookup_insert_Some in Hv as [[<- _]|[_ Hv]]; [tauto|]);
      apply lookup_singleton_Some in Hv as [<- _]; tauto. }
  split.
  { intros transport self w. unfold query, bind, makeRequest.
    destruct (retryLoop_events transport self
                (requestOf self "POST" "/api/v1/dev/query" (Some (queryBody request)))
                (Z.to_nat (maxRetries self + 1)) 0%Z None w) as (t & Ht & Hreq).
    exists t. split.
    - destruct (retryLoop transport self _ _ 0%Z None w) as [[v|e] w'];
        cbn [snd] in Ht |- *; exact Ht.
    - intros req' Hin. rewrite (Hreq req' Hin). repeat split. }
  intros transport self w Hpos Hrange. unfold query, bind, makeRequest.
  replace (Z.to_nat (maxRetries self + 1)) with (S (Z.to_nat (maxRetries self))) by lia.
  destruct (retryLoop_first_call transport self
              (requestOf self "POST" "/api/v1/dev/query" (Some (queryBody request)))
              (Z.to_nat (maxRetries self)) 0%Z None w Hrange) as (t & Ht).
  exists t. rewrite <- app_assoc in Ht. cbn [app] in Ht.
  destruct (retryLoop transport self _ _ 0%Z None w) as [[v|e] w'];
    cbn [snd] in Ht |- *; exact Ht.
Qed.

Lemma query_body_keys_witness :
  exists t,
    snd (query (always answered) sampleClient
           (QueryRequest.mk "What is Python?" (Some "abc123") None None) []) =
    [] ++ EFetch (requestOf sampleClient "POST" "/api/v1/dev/query"
                    (Some (queryBody
                             (QueryRequest.mk "What is Python?" (Some "abc123") None None))))
            :: t.
Proof.
  destruct (query_body_keys (QueryRequest.mk "What is Python?" (Some "abc123") None None))
    as (_ & _ & _ & _ & _ & _ & _ & _ & _ & Hfirst).
  apply (Hfirst (always answered) sampleClient []).
  - unfold sampleClient; simpl; lia.
  - unfold sampleClient; simpl; lia.
Defined.

(** A call whose first attempt gets a success status and a JSON body
    returns that body after one call of the transport. *)
Lemma makeRequest_first_success
    (transport : Transport) (self : BrainusAI) (method endpoint : string)
    (body : option (gmap string BodyValue)) (w : Trace) (r : Response) (raw : Value) :
  let req := requestOf self method endpoint body in
  (0 <= maxRetries self)%Z ->
  (0 <= timeout self <= 4294967295)%Z ->
  transport req (fetchCount w) = Resolve r ->
  ok r = true ->
  json r = Parsed raw ->
  makeRequest transport self method endpoint body w = (Ok raw, w ++ [EFetch req]).
Proof.
  intros req Hpos Hrange Hr Hok Hjson.
  rewrite (makeRequest_recovers transport self method endpoint body w 0 raw).
  - reflexivity.
  - exact Hpos.
  - exact Hrange.
  - intros i Hi. inversion Hi.
  - rewrite Nat.add_0_r. fold req. rewrite Hr.
    unfold settle, responseJson. now rewrite Hok, Hjson.
Qed.







(* ===================================================================== *)
(** ** The retry loop under any transport *)
(* ===================================================================== *)


(** Whatever the transport does, a loop that still has iterations leaves
    some failed attempts with their waits, in the order of the schedule,
    and one last call. *)
Lemma retryLoop_shape (transport : Transport) (self : BrainusAI) (req : Request) (n : nat) :
  (0 <= signalTimeout req <= 4294967295)%Z ->
  forall (a : nat) lastError w,
    (Z.of_nat a + Z.of_nat (S n) = maxRetries self + 1)%Z ->
    exists k,
      (k <= n)%nat /\
      snd (retryLoop transport self req (S n) (Z.of_nat a) lastError w) =
      w ++ flat_map (fun i => [EFetch req; ESleep (Z.min (1000 * 2 ^ Z.of_nat i) 10000)])
             (seq a k) ++ [EFetch req].
Proof.
  intros Hrange. induction n as [|n IH]; intros a lastError w Hsum.
  - exists 0%nat. split; [lia|]. cbn [retryLoop seq flat_map app].
    unfold catch. rewrite attemptOnce_run by exact Hrange.
    destruct (settle (transport req (fetchCount w))) as [v|e]; [reflexivity|].
    destruct (rethrown e); [reflexivity|].
    unfold bind. replace (Z.of_nat a <? maxRetries self)%Z with false
      by (symmetry; apply Z.ltb_ge; lia).
    reflexivity.
  - remember (S n) as m eqn:Hm. cbn [retryLoop]. unfold catch.
    rewrite attemptOnce_run by exact Hrange.
    destruct (settle (transport req (fetchCount w))) as [v|e].
    { exists 0%nat. split; [lia|reflexivity]. }
    destruct (rethrown e).
    { exists 0%nat. split; [lia|reflexivity]. }
    unfold bind. replace (Z.of_nat a <? maxRetries self)%Z with true
      by (symmetry; apply Z.ltb_lt; lia).
    unfold sleep. subst m.
    replace (Z.of_nat a + 1)%Z with (Z.of_nat (S a)) by lia.
    destruct (IH (S a) (Some e) ((w ++ [EFetch req]) ++ [ESleep (backoff (Z.of_nat a))]))
      as (k & Hk & Htrace); [lia|].
    exists (S k). split; [lia|]. rewrite Htrace.
    cbn [seq flat_map]. unfold backoff. now rewrite <- !app_assoc.
Qed.

(** X1.  Whatever the transport does, [makeRequest] with [maxRetries >= 0]
    and a timeout that the abort signal accepts leaves exactly the schedule of some number [k <= maxRetries] of failed
    attempts: [k] calls each followed by its backoff wait, and one last
    call. *)
Theorem makeRequest_follows_schedule
    (transport : Transport) (self : BrainusAI) (method endpoint : string)
    (body : option (gmap string BodyValue)) (w : Trace) :
  (0 <= maxRetries self)%Z ->
  (0 <= timeout self <= 4294967295)%Z ->
  exists k,
    (k <= Z.to_nat (maxRetries self))%nat /\
    snd (makeRequest transport self method endpoint body w) =
    w ++ retrySchedule (requestOf self method endpoint body) k.
Proof.
  intros Hpos Hrange. unfold makeRequest.
  replace (Z.to_nat (maxRetries self + 1)) with (S (Z.to_nat (maxRetries self))) by lia.
  destruct (retryLoop_shape transport self (requestOf self method endpoint body)
              (Z.to_nat (maxRetries self)) Hrange 0 None w) as (k & Hk & Htrace); [lia|].
  exists k. split; [exact Hk|]. exact Htrace.
Qed.

Lemma makeRequest_follows_schedule_witness :
  exists k,
    (k <= 3)%nat /\
    snd (makeRequest (failsThen 2 answered) sampleClient "GET" "/api/v1/dev/usage" None []) =
    [] ++ retrySchedule (requestOf sampleClient "GET" "/api/v1/dev/usage" None) k.
Proof.
  apply (makeRequest_follows_schedule (failsThen 2 answered) sampleClient
           "GET" "/api/v1/dev/usage" None []).
  - unfold sampleClient; simpl; lia.
  - unfold sampleClient; simpl; lia.
Defined.




(** X3.  With a negative [maxRetries] the loop body never runs: the
    transport is not called at all, and [makeRequest] throws the error of
    the exhausted retries, whose message ends with "undefined" for the
    last error that does not exist. *)
Theorem makeRequest_negative_maxRetries
    (transport : Transport) (self : BrainusAI) (method endpoint : string)
    (body : option (gmap string BodyValue)) (w : Trace) :
  (maxRetries self < 0)%Z ->
  makeRequest transport self method endpoint body w =
  (Throw (APIError
            ("Request failed after " +:+ numToString (maxRetries self + 1) +:+
             " attempts: undefined")
            None),
   w).
Proof.
  intros Hneg. unfold makeRequest.
  replace (Z.to_nat (maxRetries self + 1)) with 0%nat by lia.
  reflexivity.
Qed.

Lemma makeRequest_negative_maxRetries_witness :
  makeRequest (always answered)
    {| apiKey := "brainus_test"; baseUrl := "https://api.brainus.lk";
       timeout := 30000; maxRetries := -1 |}
    "GET" "/api/v1/dev/usage" None [] =
  (Throw (APIError "Request failed after 0 attempts: undefined" None), []).
Proof.
  apply (makeRequest_negative_maxRetries (always answered)
           {| apiKey := "brainus_test"; baseUrl := "https://api.brainus.lk";
              timeout := 30000; maxRetries := -1 |}
           "GET" "/api/v1/dev/usage" None []).
  simpl. lia.
Defined.

(** An error that leaves the loop is one of those thrown again, or the
    error of the exhausted retries. *)
Lemma retryLoop_thrown (transport : Transport) (self : BrainusAI) (req : Request) (n : nat) :
  forall attempt lastError w e w',
    retryLoop transport self req n attempt lastError w = (Throw e, w') ->
    rethrown e = true \/ exists message, e = APIError message None.
Proof.
  induction n as [|n IH]; intros attempt lastError w e w' Hrun.
  - cbn in Hrun. injection Hrun as <- _. right. eauto.
  - cbn [retryLoop] in Hrun. unfold catch in Hrun.
    destruct (attemptOnce transport req w) as [[v|e0] w0]; [discriminate Hrun|].
    destruct (rethrown e0) eqn:Hre.
    + injection Hrun as <- _. now left.
    + unfold bind in Hrun.
      destruct ((if (attempt <? maxRetries self)%Z then sleep (backoff attempt) else ret tt)
                  w0) as [[[]|e1] w1] eqn:Hsleep.
      * eapply IH. exact Hrun.
      * destruct (attempt <? maxRetries self)%Z; discriminate Hsleep.
Qed.

(** X4.  Whatever the transport does, an error thrown by [makeRequest] is
    an [AuthenticationError], a [QuotaExceededError] or an [APIError]:
    never a [RateLimitError], and never an error of the runtime (a network
    failure, a timeout, a parse error), which are retried and then
    replaced by the [APIError] of the exhausted retries. *)
Theorem makeRequest_thrown_kinds
    (transport : Transport) (self : BrainusAI) (method endpoint : string)
    (body : option (gmap string BodyValue)) (w w' : Trace) (e : Thrown) :
  makeRequest transport self method endpoint body w = (Throw e, w') ->
  (exists message, e = AuthenticationError message) \/
  (exists message, e = QuotaExceededError message) \/
  (exists message statusCode, e = APIError message statusCode).
Proof.
  intros Hrun. apply retryLoop_thrown in Hrun as [Hre|[message ->]].
  - destruct e as [m|m ra|m|m c|nm m]; cbn in Hre; try discriminate Hre; eauto.
  - eauto.
Qed.

Lemma makeRequest_thrown_kinds_witness :
  (exists message,
     APIError "Request failed after 4 attempts: Rate limit exceeded" None =
     AuthenticationError message) \/
  (exists message,
     APIError "Request failed after 4 attempts: Rate limit exceeded" None =
     QuotaExceededError message) \/
  (exists message statusCode,
     APIError "Request failed after 4 attempts: Rate limit exceeded" None =
     APIError message statusCode).
Proof.
  apply (makeRequest_thrown_kinds (always rateLimited) sampleClient
           "POST" "/api/v1/dev/query" (Some (queryBody sampleQuery)) []
           (retrySchedule sampleQueryRequest 3)).
  vm_compute. reflexivity.
Defined.

(* ===================================================================== *)
(** ** Configuration and the requests sent *)
(* ===================================================================== *)



(** X6.  Every call that [makeRequest] makes, the retries included,
    carries the same request: the URL is the base URL followed by the
    endpoint, the headers are the API key, the JSON content type and the
    user agent of the client, and the method, the body and the timeout of
    the abort signal are those of the call. *)
Theorem makeRequest_sends_same_request
    (transport : Transport) (self : BrainusAI) (method endpoint : string)
    (body : option (gmap string BodyValue)) (w : Trace) :
  exists t,
    snd (makeRequest transport self method endpoint body w) = w ++ t /\
    forall req',
      In (EFetch req') t ->
      req' = {| url := baseUrl self +:+ endpoint;
                method := method;
                headers := [("X-API-Key", apiKey self);
                            ("Content-Type", "application/json");
                            ("User-Agent", "@brainus/ai/0.1.0")];
                body := body;
                signalTimeout := timeout self |}.
Proof.
  unfold makeRequest.
  destruct (retryLoop_events transport self (requestOf self method endpoint body)
              (Z.to_nat (maxRetries self + 1)) 0%Z None w) as (t & Ht & Hreq).
  exists t. split; [exact Ht|].
  intros req' Hin. rewrite (Hreq req' Hin). reflexivity.
Qed.

(** X7.  For an attempt number [k >= 0] the backoff wait lies between
    1000 and 10000 ms, it is [1000 * 2^k] up to the fourth attempt and
    10000 from the fifth on, and it never decreases from one attempt to
    the next. *)
Theorem backoff_bounds (k : Z) :
  (0 <= k)%Z ->
  (1000 <= backoff k <= 10000)%Z
  /\ ((k <= 3)%Z -> backoff k = (1000 * 2 ^ k)%Z)
  /\ ((4 <= k)%Z -> backoff k = 10000%Z)
  /\ (forall j, (0 <= j <= k)%Z -> (backoff j <= backoff k)%Z).
Proof.
  intros Hk. unfold backoff.
  assert (Hpos : forall i, (0 <= i)%Z -> (1 <= 2 ^ i)%Z).
  { intros i Hi. pose proof (Z.pow_pos_nonneg 2 i). lia. }
  assert (Hmono : forall i j, (0 <= i <= j)%Z -> (2 ^ i <= 2 ^ j)%Z).
  { intros i j Hij. apply Z.pow_le_mono_r; lia. }
  pose proof (Hpos k Hk). repeat split; try lia.
  - intros Hsmall. pose proof (Hmono k 3%Z). change (2 ^ 3)%Z with 8%Z in *. lia.
  - intros Hlarge. pose proof (Hmono 4%Z k). change (2 ^ 4)%Z with 16%Z in *. lia.
  - intros j Hj. pose proof (Hmono j k Hj). lia.
Qed.

Lemma backoff_bounds_witness :
  (1000 <= backoff 3 <= 10000)%Z
  /\ ((3 <= 3)%Z -> backoff 3 = (1000 * 2 ^ 3)%Z)
  /\ ((4 <= 3)%Z -> backoff 3 = 10000%Z)
  /\ (forall j, (0 <= j <= 3)%Z -> (backoff j <= backoff 3)%Z).
Proof.
  apply (backoff_bounds 3). lia.
Defined.

(* ===================================================================== *)
(** ** Error responses through the retry loop *)
(* ===================================================================== *)

(** X8.  For a client whose retry count is not negative and whose timeout
    the abort signal accepts.  A response whose status is neither a success nor 429, and lies
    below 500 (and is not the falsy [0]), ends the call at once: the error
    that the mapping builds for it is thrown after this one call of the
    transport.  For 400 and 403 the message must be a string. *)
Theorem makeRequest_client_status_not_retried
    (transport : Transport) (self : BrainusAI) (method endpoint : string)
    (body : option (gmap string BodyValue)) (w : Trace) (r : Response) :
  let req := requestOf self method endpoint body in
  (0 <= maxRetries self)%Z ->
  (0 <= timeout self <= 4294967295)%Z ->
  transport req (fetchCount w) = Resolve r ->
  (status r < 200 \/ 299 < status r)%Z ->
  (status r < 500)%Z ->
  status r <> 0%Z ->
  status r <> 429%Z ->
  (status r = 400%Z \/ status r = 403%Z -> exists s, errorMessageOf r = Str s) ->
  exists e,
    handleErrorResponse r = Throw e /\
    makeRequest transport self method endpoint body w = (Throw e, w ++ [EFetch req]).
Proof.
  intros req Hpos Hrange Hr Hnot_ok Hlt Hnz H429 Hstring.
  assert (Hcode : forall m, rethrown (APIError m (Some (status r))) = true).
  { intros m. cbn [rethrown]. apply andb_true_iff. split.
    - now apply negb_true_iff, Z.eqb_neq.
    - now apply Z.ltb_lt. }
  assert (Hthrown : exists e, handleErrorResponse r = Throw e /\ rethrown e = true).
  { destruct (Z.eq_dec (status r) 401%Z) as [H401|H401].
    { rewrite (handleErrorResponse_401 r H401). eauto. }
    destruct (Z.eq_dec (status r) 400%Z) as [H400|H400].
    { destruct (Hstring (or_introl H400)) as [s Hs].
      unfold handleErrorResponse. rewrite Hs, H400.
      cbn [Z.eqb Pos.eqb callIncludes bindR].
      destruct (includes noStoreId s); eauto. }
    destruct (Z.eq_dec (status r) 403%Z) as [H403|H403].
    { destruct (Hstring (or_intror H403)) as [s Hs].
      unfold handleErrorResponse. rewrite Hs, H403.
      cbn [Z.eqb Pos.eqb callToLowerCase bindR].
      destruct (includes "quota" (toLowerCase s)); eauto. }
    rewrite handleErrorResponse_other by assumption. eauto. }
  destruct Hthrown as (e & He & Hre). exists e. split; [exact He|].
  apply makeRequest_rethrows; [exact Hpos|exact Hrange| |exact Hre].
  fold req. rewrite Hr. apply settle_throws; [|exact He].
  now apply ok_false_outside.
Qed.

Lemma makeRequest_client_status_not_retried_witness :
  exists e,
    handleErrorResponse (mkResponse 404 "Not Found" [] (Unparsable "Unexpected end")) =
      Throw e /\
    makeRequest (always (mkResponse 404 "Not Found" [] (Unparsable "Unexpected end")))
      sampleClient "GET" "/api/v1/dev/plans" None [] =
    (Throw e, [] ++ [EFetch (requestOf sampleClient "GET" "/api/v1/dev/plans" None)]).
Proof.
  apply (makeRequest_client_status_not_retried
           (always (mkResponse 404 "Not Found" [] (Unparsable "Unexpected end")))
           sampleClient "GET" "/api/v1/dev/plans" None []
           (mkResponse 404 "Not Found" [] (Unparsable "Unexpected end"))).
  - unfold sampleClient; simpl; lia.
  - unfold sampleClient; simpl; lia.
  - reflexivity.
  - simpl. lia.
  - simpl. lia.
  - simpl. lia.
  - simpl. lia.
  - simpl. intros [H|H]; discriminate H.
Defined.

(** X9.  For a client whose retry count is not negative and whose timeout
    the abort signal accepts.  A 403 whose message is not a string (the body's [detail] is, say,
    an object or an array) makes the mapping itself fail with a
    [TypeError], on [toLowerCase]; this error is none of those thrown
    again, so a transport that always answers this way is called
    [maxRetries + 1] times and the caller gets the [APIError] of the
    exhausted retries, without status code. *)
Theorem forbidden_with_structured_detail_is_retried
    (transport : Transport) (self : BrainusAI) (method endpoint : string)
    (body : option (gmap string BodyValue)) (w : Trace) :
  let req := requestOf self method endpoint body in
  (0 <= maxRetries self)%Z ->
  (0 <= timeout self <= 4294967295)%Z ->
  (forall n, exists r,
     transport req n = Resolve r /\ status r = 403%Z /\
     forall s, errorMessageOf r <> Str s) ->
  (forall n r,
     transport req n = Resolve r ->
     exists message, handleErrorResponse r = Throw (NativeError "TypeError" message))
  /\
  exists message,
    makeRequest transport self method endpoint body w =
    (Throw (APIError message None), w ++ retrySchedule req (Z.to_nat (maxRetries self))).
Proof.
  intros req Hpos Hrange Hall.
  assert (Hmap : forall r,
             status r = 403%Z -> (forall s, errorMessageOf r <> Str s) ->
             handleErrorResponse r = Throw (notAFunction "toLowerCase")).
  { intros r H403 Hns. unfold handleErrorResponse. rewrite H403.
    cbn [Z.eqb Pos.eqb].
    destruct (errorMessageOf r) as [| |b|z|s|items|ms]; try reflexivity.
    now destruct (Hns s). }
  split.
  - intros n r Hr. destruct (Hall n) as (r' & Hr' & H403 & Hns).
    rewrite Hr in Hr'. injection Hr' as <-.
    rewrite (Hmap r H403 Hns). unfold notAFunction. eauto.
  - eexists. apply makeRequest_exhausted; [exact Hpos|exact Hrange|].
    intros n. destruct (Hall n) as (r & Hr & H403 & Hns). fold req. rewrite Hr.
    exists (notAFunction "toLowerCase"). split; [|reflexivity].
    apply settle_throws; [apply ok_false_outside; lia|now apply Hmap].
Qed.

Lemma forbidden_with_structured_detail_is_retried_witness :
  exists message,
    makeRequest
      (always (mkResponse 403 "Forbidden" []
                 (Parsed (Obj [("detail", Obj [("code", Str "quota_exceeded")])]))))
      sampleClient "GET" "/api/v1/dev/usage" None [] =
    (Throw (APIError message None),
     [] ++ retrySchedule (requestOf sampleClient "GET" "/api/v1/dev/usage" None)
             (Z.to_nat (maxRetries sampleClient))).
Proof.
  assert (Hpos : (0 <= maxRetries sampleClient)%Z) by (unfold sampleClient; simpl; lia).
  assert (Hrange : (0 <= timeout sampleClient <= 4294967295)%Z)
    by (unfold sampleClient; simpl; lia).
  apply (proj2 (forbidden_with_structured_detail_is_retried
                  (always (mkResponse 403 "Forbidden" []
                             (Parsed (Obj [("detail", Obj [("code", Str "quota_exceeded")])]))))
                  sampleClient "GET" "/api/v1/dev/usage" None [] Hpos Hrange
                  (fun _ => ex_intro _ _
                              (conj eq_refl (conj eq_refl
                                 (fun s (H : Obj [("code", Str "quota_exceeded")] = Str s) =>
                                    eq_ind (Obj [("code", Str "quota_exceeded")])
                                      (fun v => match v with Obj _ => True | _ => False end)
                                      I (Str s) H)))))).
Defined.

(* ===================================================================== *)
(** ** The retry-after hint *)
(* ===================================================================== *)

Lemma digits_step (c : ascii) (rest : string) (acc : option Z) (k : Z) :
  digit c = Some k ->
  digits (String c rest) acc = digits rest (Some (10 * default 0%Z acc + k)%Z).
Proof.
  intros H. cbn [digits]. now rewrite H.
Qed.

Ltac read_digit :=
  match goal with
  | |- context [digits (String ?c _) _] =>
      let k := eval vm_compute in (digit c) in
      match k with
      | Some ?z => rewrite (digits_step c _ _ z eq_refl)
      end
  end.

Lemma digits_of_uint_acc (d : Decimal.uint) :
  forall a : positive,
    digits (NilEmpty.string_of_uint d) (Some (Z.pos a)) =
    Some (Z.pos (Pos.of_uint_acc d a)).
Proof.
  induction d; intros a; cbn [NilEmpty.string_of_uint Pos.of_uint_acc];
    [reflexivity|..];
    read_digit; rewrite <- IHd; f_equal; f_equal;
    cbn [default from_option id]; lia.
Qed.

Lemma digits_of_uint (d : Decimal.uint) :
  digits (NilEmpty.string_of_uint d) (Some 0%Z) = Some (Z.of_N (Pos.of_uint d)).
Proof.
  induction d; cbn [NilEmpty.string_of_uint Pos.of_uint]; [reflexivity|..];
    read_digit; [exact IHd|..];
    apply (digits_of_uint_acc d).
Qed.

Lemma parseInt_of_uint (d : Decimal.uint) :
  d <> Decimal.Nil ->
  parseInt (NilEmpty.string_of_uint d) = Finite (Z.of_N (Pos.of_uint d)) /\
  parseInt (String "-" (NilEmpty.string_of_uint d)) = Finite (- Z.of_N (Pos.of_uint d)).
Proof.
  intros Hd. pose proof (digits_of_uint d) as Hdigits.
  assert (Hnone : digits (NilEmpty.string_of_uint d) None =
                  digits (NilEmpty.string_of_uint d) (Some 0%Z)).
  { destruct d; [contradiction|..]; reflexivity. }
  split.
  - transitivity (match digits (NilEmpty.string_of_uint d) None with
                  | Some n => Finite (1 * n)
                  | None => NaN
                  end).
    + destruct d; [contradiction|..]; reflexivity.
    + rewrite Hnone, Hdigits. f_equal; lia.
  - transitivity (match digits (NilEmpty.string_of_uint d) None with
                  | Some n => Finite (-1 * n)
                  | None => NaN
                  end).
    + reflexivity.
    + rewrite Hnone, Hdigits. f_equal; lia.
Qed.

(** [parseInt] reads back the decimal text of an integer. *)
Lemma parseInt_numToString (n : Z) : parseInt (numToString n) = Finite n.
Proof.
  unfold numToString. destruct n as [|p|p]; [reflexivity|..];
    cbn [Z.to_int NilZero.string_of_int]; unfold NilZero.string_of_uint;
    pose proof (Unsigned.to_uint_nonnil p) as Hnil;
    destruct (parseInt_of_uint (Pos.to_uint p) Hnil) as [Hpos Hneg];
    rewrite (Unsigned.of_to p) in Hpos, Hneg;
    destruct (Pos.to_uint p) eqn:Hd; try contradiction;
    first [exact Hpos | exact Hneg].
Qed.

Lemma numToString_nonempty (n : Z) : String.eqb (numToString n) "" = false.
Proof.
  unfold numToString. destruct n as [|p|p]; [reflexivity| |reflexivity].
  cbn [Z.to_int NilZero.string_of_int]. unfold NilZero.string_of_uint.
  pose proof (Unsigned.to_uint_nonnil p) as Hnil.
  destruct (Pos.to_uint p); [contradiction|..]; reflexivity.
Qed.

(** One header whose name is "Retry-After" in any letter case. *)
Lemma headersGet_retry_after (r : Response) (name value : string) :
  responseHeaders r = [(name, value)] ->
  toLowerCase name = "retry-after" ->
  headersGet r "Retry-After" = Some value.
Proof.
  intros Hheaders Hname. unfold headersGet. rewrite Hheaders.
  cbn [List.filter fst]. rewrite Hname. reflexivity.
Qed.

(** X10.  A 429 whose only header is Retry-After, in any letter case, with
    the decimal text of an integer [n] (of a size a JavaScript number holds
    exactly) is mapped to a [RateLimitError] whose retry-after is [n]. *)
Theorem retry_after_round_trip (r : Response) (name : string) (n : Z) :
  status r = 429%Z ->
  (Z.abs n <= 2 ^ 53)%Z ->
  responseHeaders r = [(name, numToString n)] ->
  toLowerCase name = "retry-after" ->
  handleErrorResponse r =
  Throw (RateLimitError (toString (errorMessageOf r)) (Some (Finite n))).
Proof.
  intros H429 _ Hheaders Hname. rewrite (handleErrorResponse_429 r H429).
  unfold retryAfterOf.
  rewrite (headersGet_retry_after r name (numToString n) Hheaders Hname).
  now rewrite numToString_nonempty, parseInt_numToString.
Qed.

Lemma retry_after_round_trip_witness :
  handleErrorResponse (mkResponse 429 "Too Many Requests" [("retry-after", "120")]
                         (Unparsable "Unexpected end of JSON input")) =
  Throw (RateLimitError "Too Many Requests" (Some (Finite 120))).
Proof.
  apply (retry_after_round_trip
           (mkResponse 429 "Too Many Requests" [("retry-after", "120")]
              (Unparsable "Unexpected end of JSON input"))
           "retry-after" 120%Z).
  - reflexivity.
  - simpl. lia.
  - reflexivity.
  - reflexivity.
Defined.

(** X11.  A 429 without a Retry-After header, or with an empty one, gives
    a [RateLimitError] whose retry-after is undefined; a header that does
    not begin with a digit, a sign or white space, such as an HTTP date,
    gives the retry-after [NaN]. *)
Theorem retry_after_missing_or_not_a_number (r : Response) :
  status r = 429%Z ->
  (headersGet r "Retry-After" = None ->
   handleErrorResponse r = Throw (RateLimitError (toString (errorMessageOf r)) None))
  /\
  (headersGet r "Retry-After" = Some "" ->
   handleErrorResponse r = Throw (RateLimitError (toString (errorMessageOf r)) None))
  /\
  (forall c rest,
     headersGet r "Retry-After" = Some (String c rest) ->
     isWhiteSpace c = false ->
     digit c = None ->
     c <> "-"%char ->
     c <> "+"%char ->
     handleErrorResponse r =
     Throw (RateLimitError (toString (errorMessageOf r)) (Some NaN))).
Proof.
  intros H429. rewrite (handleErrorResponse_429 r H429). unfold retryAfterOf.
  split; [|split].
  - now intros ->.
  - now intros ->.
  - intros c rest -> Hwhite Hdigit Hminus Hplus. cbn [String.eqb]. do 3 f_equal.
    unfold parseInt. cbn [trimStart]. rewrite Hwhite.
    assert (Hsign :
      match String c rest with
      | String "-" rest0 => ((-1)%Z, rest0)
      | String "+" rest0 => (1%Z, rest0)
      | _ => (1%Z, String c rest)
      end = (1%Z, String c rest)).
    { destruct c as [[] [] [] [] [] [] [] []]; try reflexivity;
        [now destruct Hplus|now destruct Hminus]. }
    rewrite Hsign. cbn [digits]. now rewrite Hdigit.
Qed.

Lemma retry_after_missing_or_not_a_number_witness :
  handleErrorResponse
    (mkResponse 429 "Too Many Requests" [("Retry-After", "Wed, 21 Oct 2015 07:28:00 GMT")]
       (Unparsable "Unexpected end of JSON input")) =
  Throw (RateLimitError "Too Many Requests" (Some NaN)).
Proof.
  destruct (retry_after_missing_or_not_a_number
              (mkResponse 429 "Too Many Requests"
                 [("Retry-After", "Wed, 21 Oct 2015 07:28:00 GMT")]
                 (Unparsable "Unexpected end of JSON input")) eq_refl) as (_ & _ & Hdate).
  apply (Hdate "W"%char "ed, 21 Oct 2015 07:28:00 GMT" eq_refl eq_refl eq_refl);
    discriminate.
Defined.

(* ===================================================================== *)
(** ** Remapping the raw responses *)
(* ===================================================================== *)

Lemma mapR_Ok {A B} (f : A -> Result B) (xs : list A) (ys : list B) :
  mapR f xs = Ok ys -> Forall2 (fun x y => f x = Ok y) xs ys.
Proof.
  revert ys. induction xs as [|x xs IH]; intros ys Hmap.
  - injection Hmap as <-. constructor.
  - cbn [mapR] in Hmap. destruct (f x) as [y|e] eqn:Hfx; [|discriminate Hmap].
    cbn [bindR] in Hmap. destruct (mapR f xs) as [ys'|e]; [|discriminate Hmap].
    injection Hmap as <-. constructor; [exact Hfx|now apply IH].
Qed.

Lemma mapR_Throw {A B} (f : A -> Result B) (xs : list A) (e : Thrown) :
  mapR f xs = Throw e -> exists x, In x xs /\ f x = Throw e.
Proof.
  induction xs as [|x xs IH]; intros Hmap; [discriminate Hmap|].
  cbn [mapR] in Hmap. destruct (f x) as [y|e0] eqn:Hfx.
  - cbn [bindR] in Hmap. destruct (mapR f xs) as [ys|e1]; [discriminate Hmap|].
    injection Hmap as ->. destruct (IH eq_refl) as (x' & Hin & Hx').
    exists x'. split; [now right|exact Hx'].
  - injection Hmap as ->. exists x. split; [now left|exact Hfx].
Qed.

Lemma getProp_field (v : Value) (key : string) :
  v <> Null -> v <> Undefined -> getProp v key = Ok (field key v).
Proof.
  intros Hnull Hundef. destruct v; try reflexivity; contradiction.
Qed.

Lemma getProp_Throw (v : Value) (key : string) (e : Thrown) :
  getProp v key = Throw e ->
  (v = Null \/ v = Undefined) /\ exists message, e = NativeError "TypeError" message.
Proof.
  destruct v; cbn [getProp]; intros H; try discriminate H;
    injection H as <-; split; eauto.
Qed.

Lemma truthy_defined (v : Value) : truthy v = true -> v <> Null /\ v <> Undefined.
Proof.
  destruct v; cbn [truthy]; intros H; try discriminate H; split; discriminate.
Qed.

Lemma remapCitation_Throw (c : Value) (e : Thrown) :
  remapCitation c = Throw e -> exists message, e = NativeError "TypeError" message.
Proof.
  unfold remapCitation. intros H.
  destruct (getProp c "document_id") as [v|e0] eqn:Hfirst.
  - destruct c; cbn [getProp] in Hfirst; try discriminate Hfirst;
      cbn [getProp bindR] in H; discriminate H.
  - cbn [bindR] in H. injection H as <-.
    now destruct (getProp_Throw _ _ _ Hfirst) as [_ Hm].
Qed.

(** X12.  When the remapping of [query] succeeds, the answer and the
    citation flag are the raw fields, and the citations are either the
    empty list, for a raw [citations] that is missing or falsy, or the
    remapped elements of the raw array, one for one and in the same
    order. *)
Theorem remapQueryResponse_keeps_citations (raw : Value) (response : QueryResponse.t) :
  remapQueryResponse raw = Ok response ->
  QueryResponse.answer response = field "answer" raw
  /\ QueryResponse.hasCitations response = field "has_citations" raw
  /\ ((truthy (field "citations" raw) = false /\ QueryResponse.citations response = [])
      \/
      (exists items,
         field "citations" raw = Arr items /\
         length (QueryResponse.citations response) = length items /\
         Forall2 (fun item citation => remapCitation item = Ok citation)
           items (QueryResponse.citations response))).
Proof.
  unfold remapQueryResponse. intros H.
  destruct (getProp raw "answer") as [answer|e] eqn:Hanswer; [|discriminate H].
  assert (Hdefined : raw <> Null /\ raw <> Undefined).
  { destruct raw; cbn in Hanswer; try discriminate Hanswer; split; discriminate. }
  destruct Hdefined as [Hnull Hundef].
  rewrite (getProp_field raw "answer" Hnull Hundef) in Hanswer.
  injection Hanswer as <-.
  rewrite !(getProp_field raw _ Hnull Hundef) in H. cbn [bindR] in H.
  unfold or in H. destruct (truthy (field "citations" raw)) eqn:Htruthy.
  - destruct (field "citations" raw) as [| |b|z|s|items|ms] eqn:Hcit;
      cbn [callMap bindR] in H; try discriminate H.
    destruct (mapR remapCitation items) as [mapped|e] eqn:Hmap; [|discriminate H].
    cbn [bindR] in H. injection H as <-. cbn.
    split; [reflexivity|]. split; [reflexivity|]. right. exists items.
    pose proof (mapR_Ok _ _ _ Hmap) as Hall.
    split; [reflexivity|]. split; [|exact Hall].
    symmetry. eapply Forall2_length. exact Hall.
  - cbn [callMap mapR bindR] in H. injection H as <-. cbn.
    split; [reflexivity|]. split; [reflexivity|]. now left.
Qed.

Lemma remapQueryResponse_keeps_citations_witness :
  exists response,
    remapQueryResponse rawAnswer = Ok response /\
    exists items,
      field "citations" rawAnswer = Arr items /\
      length (QueryResponse.citations response) = length items.
Proof.
  eexists. split; [reflexivity|].
  destruct (remapQueryResponse_keeps_citations rawAnswer _ eq_refl)
    as (_ & _ & [[Hfalsy _]|(items & Hitems & Hlength & _)]).
  - discriminate Hfalsy.
  - exists items. split; [exact Hitems|exact Hlength].
Defined.

(** X13.  The remapping of [query] throws a [TypeError] when the raw
    [citations] is truthy without being an array, and when the raw array
    holds a [null]. *)
Theorem remapQueryResponse_malformed_citations (ms : list (string * Value)) :
  (forall v,
     member "citations" ms = Some v ->
     truthy v = true ->
     (forall items, v <> Arr items) ->
     exists message,
       remapQueryResponse (Obj ms) = Throw (NativeError "TypeError" message))
  /\
  (forall items,
     member "citations" ms = Some (Arr items) ->
     In Null items ->
     exists message,
       remapQueryResponse (Obj ms) = Throw (NativeError "TypeError" message)).
Proof.
  split.
  - intros v Hv Htruthy Hnot_array. unfold remapQueryResponse.
    cbn [getProp bindR]. rewrite Hv. cbn [default from_option id].
    unfold or. rewrite Htruthy.
    destruct v as [| |b|z|s|items|ms']; cbn [callMap bindR];
      try discriminate Htruthy; unfold notAFunction; eauto.
    now destruct (Hnot_array items).
  - intros items Hitems Hnull. unfold remapQueryResponse.
    cbn [getProp bindR]. rewrite Hitems. cbn [default from_option id or truthy callMap].
    destruct (mapR remapCitation items) as [mapped|e] eqn:Hmap.
    + exfalso. pose proof (mapR_Ok _ _ _ Hmap) as Hall.
      clear -Hnull Hall. induction Hall as [|x y xs ys Hxy Hall IH]; [destruct Hnull|].
      destruct Hnull as [->|Hin]; [discriminate Hxy|now apply IH].
    + cbn [bindR]. destruct (mapR_Throw _ _ _ Hmap) as (x & _ & Hx).
      destruct (remapCitation_Throw x e Hx) as [message ->]. eauto.
Qed.

Lemma remapQueryResponse_malformed_citations_witness :
  exists message,
    remapQueryResponse (Obj [("answer", Str "x"); ("citations", Str "none")]) =
    Throw (NativeError "TypeError" message).
Proof.
  apply (proj1 (remapQueryResponse_malformed_citations
                  [("answer", Str "x"); ("citations", Str "none")]) (Str "none")).
  - reflexivity.
  - reflexivity.
  - intros items H. discriminate H.
Defined.

(** X14.  For a client whose retry count is not negative and whose
    timeout the abort signal accepts, the body [null] with a success
    status makes each of the three
    typed operations throw a [TypeError] from its remapping, after the one
    call of the transport: the failure happens outside the retry loop and
    is not retried. *)
Theorem typed_operations_fail_on_null_body
    (transport : Transport) (self : BrainusAI) (w : Trace) :
  (0 <= maxRetries self)%Z ->
  (0 <= timeout self <= 4294967295)%Z ->
  (forall request r,
     let req := requestOf self "POST" "/api/v1/dev/query" (Some (queryBody request)) in
     transport req (fetchCount w) = Resolve r -> ok r = true -> json r = Parsed Null ->
     exists message,
       query transport self request w =
       (Throw (NativeError "TypeError" message), w ++ [EFetch req]))
  /\
  (forall r,
     let req := requestOf self "GET" "/api/v1/dev/usage" None in
     transport req (fetchCount w) = Resolve r -> ok r = true -> json r = Parsed Null ->
     exists message,
       getUsage transport self w =
       (Throw (NativeError "TypeError" message), w ++ [EFetch req]))
  /\
  (forall r,
     let req := requestOf self "GET" "/api/v1/dev/plans" None in
     transport req (fetchCount w) = Resolve r -> ok r = true -> json r = Parsed Null ->
     exists message,
       getPlans transport self w =
       (Throw (NativeError "TypeError" message), w ++ [EFetch req])).
Proof.
  intros Hpos Hrange. repeat split.
  - intros request r req Hr Hok Hjson. eexists. unfold query, bind.
    rewrite (makeRequest_first_success transport self _ _ _ w r Null Hpos Hrange Hr Hok Hjson).
    reflexivity.
  - intros r req Hr Hok Hjson. eexists. unfold getUsage, bind.
    rewrite (makeRequest_first_success transport self _ _ _ w r Null Hpos Hrange Hr Hok Hjson).
    reflexivity.
  - intros r req Hr Hok Hjson. eexists. unfold getPlans, bind.
    rewrite (makeRequest_first_success transport self _ _ _ w r Null Hpos Hrange Hr Hok Hjson).
    reflexivity.
Qed.

Lemma typed_operations_fail_on_null_body_witness :
  exists message,
    getUsage (always (mkResponse 200 "OK" [] (Parsed Null))) sampleClient [] =
    (Throw (NativeError "TypeError" message),
     [] ++ [EFetch (requestOf sampleClient "GET" "/api/v1/dev/usage" None)]).
Proof.
  assert (Hpos : (0 <= maxRetries sampleClient)%Z) by (unfold sampleClient; simpl; lia).
  assert (Hrange : (0 <= timeout sampleClient <= 4294967295)%Z)
    by (unfold sampleClient; simpl; lia).
  destruct (typed_operations_fail_on_null_body
              (always (mkResponse 200 "OK" [] (Parsed Null))) sampleClient [] Hpos Hrange)
    as (_ & Husage & _).
  exact (Husage (mkResponse 200 "OK" [] (Parsed Null)) eq_refl eq_refl eq_refl).
Defined.

(** X15.  For a client whose retry count is not negative and whose
    timeout the abort signal accepts, [getUsage] sends a GET without body
    and, for any JSON body other than [null], returns after one call: the flat fields are copied from
    the raw fields, a missing or falsy [by_endpoint] becomes the empty
    object, and [plan] is undefined when the raw [plan] is missing or
    falsy and is otherwise the record of its four raw fields. *)
Theorem getUsage_remaps_response
    (transport : Transport) (self : BrainusAI) (w : Trace) (r : Response) (raw : Value) :
  let req := requestOf self "GET" "/api/v1/dev/usage" None in
  (0 <= maxRetries self)%Z ->
  (0 <= timeout self <= 4294967295)%Z ->
  transport req (fetchCount w) = Resolve r ->
  ok r = true ->
  json r = Parsed raw ->
  raw <> Null ->
  raw <> Undefined ->
  getUsage transport self w =
  (Ok {| UsageStats.totalRequests := field "total_requests" raw;
         UsageStats.totalTokens := field "total_tokens" raw;
         UsageStats.totalCostUsd := field "total_cost_usd" raw;
         UsageStats.byEndpoint :=
           if truthy (field "by_endpoint" raw) then field "by_endpoint" raw else Obj [];
         UsageStats.quotaRemaining := field "quota_remaining" raw;
         UsageStats.quotaPercentage := field "quota_percentage" raw;
         UsageStats.plan :=
           if truthy (field "plan" raw)
           then Some {| PlanInfo.name := field "name" (field "plan" raw);
                        PlanInfo.rateLimitPerMinute :=
                          field "rate_limit_per_minute" (field "plan" raw);
                        PlanInfo.rateLimitPerDay :=
                          field "rate_limit_per_day" (field "plan" raw);
                        PlanInfo.monthlyQuota := field "monthly_quota" (field "plan" raw) |}
           else None;
         UsageStats.periodStart := field "period_start" raw;
         UsageStats.periodEnd := field "period_end" raw |},
   w ++ [EFetch req])
  /\ body req = None /\ method req = "GET" /\ url req = baseUrl self +:+ "/api/v1/dev/usage".
Proof.
  intros req Hpos Hrange Hr Hok Hjson Hnull Hundef. split; [|repeat split].
  unfold getUsage, bind.
  rewrite (makeRequest_first_success transport self _ _ _ w r raw Hpos Hrange Hr Hok Hjson).
  unfold liftR. f_equal. unfold remapUsage.
  rewrite !(getProp_field raw _ Hnull Hundef). cbn [bindR]. unfold or.
  destruct (truthy (field "plan" raw)) eqn:Hplan; [|reflexivity].
  destruct (truthy_defined _ Hplan) as [Hpnull Hpundef].
  rewrite !(getProp_field (field "plan" raw) _ Hpnull Hpundef). reflexivity.
Qed.

Lemma getUsage_remaps_response_witness :
  fst (getUsage
         (always (mkResponse 200 "OK" []
                    (Parsed (Obj [("total_requests", Num 42);
                                  ("plan", Obj [("name", Str "free")])]))))
         sampleClient []) =
  Ok {| UsageStats.totalRequests := Num 42;
        UsageStats.totalTokens := Undefined;
        UsageStats.totalCostUsd := Undefined;
        UsageStats.byEndpoint := Obj [];
        UsageStats.quotaRemaining := Undefined;
        UsageStats.quotaPercentage := Undefined;
        UsageStats.plan :=
          Some {| PlanInfo.name := Str "free";
                  PlanInfo.rateLimitPerMinute := Undefined;
                  PlanInfo.rateLimitPerDay := Undefined;
                  PlanInfo.monthlyQuota := Undefined |};
        UsageStats.periodStart := Undefined;
        UsageStats.periodEnd := Undefined |}.
Proof.
  assert (Hpos : (0 <= maxRetries sampleClient)%Z) by (unfold sampleClient; simpl; lia).
  assert (Hrange : (0 <= timeout sampleClient <= 4294967295)%Z)
    by (unfold sampleClient; simpl; lia).
  assert (Hnull : Obj [("total_requests", Num 42); ("plan", Obj [("name", Str "free")])]
                  <> Null) by discriminate.
  assert (Hundef : Obj [("total_requests", Num 42); ("plan", Obj [("name", Str "free")])]
                   <> Undefined) by discriminate.
  rewrite (proj1 (getUsage_remaps_response
                    (always (mkResponse 200 "OK" []
                               (Parsed (Obj [("total_requests", Num 42);
                                             ("plan", Obj [("name", Str "free")])]))))
                    sampleClient [] _ _ Hpos Hrange eq_refl eq_refl eq_refl Hnull Hundef)).
  reflexivity.
Defined.

(* ===================================================================== *)
(** ** The Express endpoint *)
(* ===================================================================== *)

(** X16.  The Express handler always answers and never throws: with
    status 200 and the result when [client.query] returns, with status 500
    and the message of the error when it throws.  So, for a client whose
    retry count is not negative and whose timeout the abort signal
    accepts, an invalid API key, which the API answers with 401, reaches
    the caller of the endpoint as a 500 after one call of the transport.  No request that the handler
    sends has the key "model". *)
Theorem expressQueryHandler_replies
    (transport : Transport) (client : BrainusAI)
    (question : string) (storeId : option string) (filters : option QueryFilters.t)
    (w : Trace) :
  let request := QueryRequest.mk question storeId filters None in
  let req := requestOf client "POST" "/api/v1/dev/query" (Some (queryBody request)) in
  (exists reply t,
     expressQueryHandler transport client question storeId filters w = (Ok reply, w ++ t) /\
     (forall result w',
        clientQuery transport client request w = (Ok result, w') ->
        reply = ReplyResult 200 result) /\
     (forall error w',
        clientQuery transport client request w = (Throw error, w') ->
        reply = ReplyError 500 (messageOf error)) /\
     (forall req',
        In (EFetch req') t ->
        exists b, body req' = Some b /\ b !! "model" = None))
  /\
  (forall r,
     (0 <= maxRetries client)%Z ->
     (0 <= timeout client <= 4294967295)%Z ->
     transport req (fetchCount w) = Resolve r ->
     status r = 401%Z ->
     expressQueryHandler transport client question storeId filters w =
     (Ok (ReplyError 500 (toString (errorMessageOf r))), w ++ [EFetch req])).
Proof.
  intros request req. split.
  - unfold expressQueryHandler, catch, clientQuery, query, bind.
    destruct (retryLoop_events transport client req
                (Z.to_nat (maxRetries client + 1)) 0%Z None w) as (t & Ht & Hreq).
    assert (Hmodel : forall req',
               In (EFetch req') t -> exists b, body req' = Some b /\ b !! "model" = None).
    { intros req' Hin. rewrite (Hreq req' Hin). eexists. split; [reflexivity|].
      unfold request, queryBody. cbn [QueryRequest.storeId QueryRequest.filters
                                       QueryRequest.model QueryRequest.query].
      destruct storeId, filters; by simplify_map_eq. }
    unfold makeRequest. fold request. fold req.
    destruct (retryLoop transport client req (Z.to_nat (maxRetries client + 1)) 0%Z None w)
      as [[raw|e] w1] eqn:Hloop; cbn [snd] in Ht; subst w1.
    + unfold liftR. destruct (remapQueryResponse raw) as [result|e] eqn:Hremap.
      * exists (ReplyResult 200 result), t. split; [reflexivity|].
        split; [|split; [|exact Hmodel]].
        -- intros result' w' H. now injection H as <- _.
        -- intros error w' H. discriminate H.
      * exists (ReplyError 500 (messageOf e)), t. split; [reflexivity|].
        split; [|split; [|exact Hmodel]].
        -- intros result' w' H. discriminate H.
        -- intros error w' H. now injection H as <- _.
    + exists (ReplyError 500 (messageOf e)), t. split; [reflexivity|].
      split; [|split; [|exact Hmodel]].
      * intros result' w' H. discriminate H.
      * intros error w' H. now injection H as <- _.
  - intros r Hpos Hrange Hr H401.
    unfold expressQueryHandler, catch, clientQuery, query, bind.
    rewrite (makeRequest_rethrows transport client _ _ _ w
               (AuthenticationError (toString (errorMessageOf r)))).
    + reflexivity.
    + exact Hpos.
    + exact Hrange.
    + fold request. fold req. rewrite Hr. apply settle_throws.
      * apply ok_false_outside. lia.
      * now apply handleErrorResponse_401.
    + reflexivity.
Qed.

Lemma expressQueryHandler_replies_witness :
  expressQueryHandler (always unauthorized) sampleClient "What is Python?" None None [] =
  (Ok (ReplyError 500 "Invalid API key"), [] ++ [EFetch sampleQueryRequest]).
Proof.
  assert (Hpos : (0 <= maxRetries sampleClient)%Z) by (unfold sampleClient; simpl; lia).
  assert (Hrange : (0 <= timeout sampleClient <= 4294967295)%Z)
    by (unfold sampleClient; simpl; lia).
  exact (proj2 (expressQueryHandler_replies (always unauthorized) sampleClient
                  "What is Python?" None None [])
           unauthorized Hpos Hrange eq_refl eq_refl).
Defined.

(* ===================================================================== *)
(** ** What a call returns *)
(* ===================================================================== *)

Lemma settle_Ok (o : FetchOutcome) (v : Value) :
  settle o = Ok v -> exists r, o = Resolve r /\ ok r = true /\ json r = Parsed v.
Proof.
  destruct o as [r|name message]; cbn [settle]; [|discriminate].
  destruct (ok r) eqn:Hok.
  - unfold responseJson. destruct (json r) as [v'|m] eqn:Hjson; [|discriminate].
    intros H. injection H as <-. eauto.
  - destruct (handleErrorResponse_throws r) as [e ->]. discriminate.
Qed.

Lemma retryLoop_returned (transport : Transport) (self : BrainusAI) (req : Request) (n : nat) :
  forall attempt lastError w v w',
    retryLoop transport self req n attempt lastError w = (Ok v, w') ->
    exists w0 r,
      w' = w0 ++ [EFetch req] /\
      transport req (fetchCount w0) = Resolve r /\ ok r = true /\ json r = Parsed v.
Proof.
  induction n as [|n IH]; intros attempt lastError w v w' Hrun; [discriminate Hrun|].
  cbn [retryLoop] in Hrun. unfold catch in Hrun.
  destruct (attemptOnce_cases transport req w) as [Hatt|[message Hatt]];
    rewrite Hatt in Hrun.
  - destruct (settle (transport req (fetchCount w))) as [v0|e] eqn:Hsettle.
    + injection Hrun as <- <-. destruct (settle_Ok _ _ Hsettle) as (r & Hr & Hok & Hjson).
      exists w, r. auto.
    + destruct (rethrown e); [discriminate Hrun|]. unfold bind in Hrun.
      destruct (attempt <? maxRetries self)%Z; unfold sleep, ret in Hrun;
        eapply IH; exact Hrun.
  - cbn [rethrown] in Hrun. unfold bind in Hrun.
    destruct (attempt <? maxRetries self)%Z; unfold sleep, ret in Hrun;
      eapply IH; exact Hrun.
Qed.

(** X17.  A value returned by [makeRequest] is the parsed JSON body of the
    last call of the transport, and that call was answered with a success
    status: no body of an error response is ever returned. *)
Theorem makeRequest_returns_success_body
    (transport : Transport) (self : BrainusAI) (method endpoint : string)
    (body : option (gmap string BodyValue)) (w w' : Trace) (v : Value) :
  makeRequest transport self method endpoint body w = (Ok v, w') ->
  exists w0 r,
    w' = w0 ++ [EFetch (requestOf self method endpoint body)] /\
    transport (requestOf self method endpoint body) (fetchCount w0) = Resolve r /\
    (200 <= status r <= 299)%Z /\
    json r = Parsed v.
Proof.
  intros Hrun. apply retryLoop_returned in Hrun as (w0 & r & Hw & Hr & Hok & Hjson).
  exists w0, r. repeat split; try assumption;
    unfold ok in Hok; apply andb_true_iff in Hok as [Hlo Hhi];
    apply Z.leb_le in Hlo, Hhi; assumption.
Qed.

Lemma makeRequest_returns_success_body_witness :
  exists w0 r,
    (let req := requestOf sampleClient "GET" "/api/v1/dev/usage" None in
     [EFetch req; ESleep 1000; EFetch req; ESleep 2000; EFetch req]) =
    w0 ++ [EFetch (requestOf sampleClient "GET" "/api/v1/dev/usage" None)] /\
    failsThen 2 answered (requestOf sampleClient "GET" "/api/v1/dev/usage" None)
      (fetchCount w0) = Resolve r /\
    (200 <= status r <= 299)%Z /\
    json r = Parsed rawAnswer.
Proof.
  apply (makeRequest_returns_success_body (failsThen 2 answered) sampleClient
           "GET" "/api/v1/dev/usage" None []).
  vm_compute. reflexivity.
Defined.

Lemma remapPlan_Throw (p : Value) (e : Thrown) :
  remapPlan p = Throw e -> exists message, e = NativeError "TypeError" message.
Proof.
  unfold remapPlan. intros H.
  destruct (getProp p "id") as [v|e0] eqn:Hfirst.
  - destruct p; cbn [getProp] in Hfirst; try discriminate Hfirst;
      cbn [getProp bindR] in H; discriminate H.
  - cbn [bindR] in H. injection H as <-.
    now destruct (getProp_Throw _ _ _ Hfirst) as [_ Hm].
Qed.

(** X18.  The remapping of [getPlans] succeeds only on a raw [plans] that
    is an array, and then gives one plan for each element, in order; for
    any other raw [plans], a missing, [null] or empty-string one included,
    and for an array holding [null], it throws a [TypeError]. *)
Theorem remapPlans_needs_array (raw : Value) :
  (forall plans,
     remapPlans raw = Ok plans ->
     exists items,
       field "plans" raw = Arr items /\
       length plans = length items /\
       Forall2 (fun item plan => remapPlan item = Ok plan) items plans)
  /\
  ((forall items, field "plans" raw <> Arr items) ->
   exists message, remapPlans raw = Throw (NativeError "TypeError" message))
  /\
  (forall items,
     field "plans" raw = Arr items ->
     In Null items ->
     exists message, remapPlans raw = Throw (NativeError "TypeError" message)).
Proof.
  assert (Hcases : (raw = Null \/ raw = Undefined) \/
                   getProp raw "plans" = Ok (field "plans" raw)).
  { destruct raw; auto. }
  split; [|split].
  - intros plans H. unfold remapPlans in H.
    destruct Hcases as [[-> | ->]|Hget]; [discriminate H..|].
    rewrite Hget in H. cbn [bindR] in H.
    destruct (field "plans" raw) as [| |b|z|s|items|ms]; cbn [callMap] in H;
      try discriminate H.
    exists items. pose proof (mapR_Ok _ _ _ H) as Hall.
    split; [reflexivity|]. split; [|exact Hall].
    symmetry. eapply Forall2_length. exact Hall.
  - intros Hnot_array. unfold remapPlans.
    destruct Hcases as [[-> | ->]|Hget]; [cbn; eauto..|].
    rewrite Hget. cbn [bindR].
    destruct (field "plans" raw) as [| |b|z|s|items|ms]; cbn [callMap];
      unfold notAFunction; eauto.
    now destruct (Hnot_array items).
  - intros items Hitems Hnull. unfold remapPlans.
    destruct Hcases as [[-> | ->]|Hget]; [discriminate Hitems..|].
    rewrite Hget, Hitems. cbn [bindR callMap].
    destruct (mapR remapPlan items) as [mapped|e] eqn:Hmap.
    + exfalso. pose proof (mapR_Ok _ _ _ Hmap) as Hall.
      clear -Hnull Hall. induction Hall as [|x y xs ys Hxy Hall IH]; [destruct Hnull|].
      destruct Hnull as [->|Hin]; [discriminate Hxy|now apply IH].
    + destruct (mapR_Throw _ _ _ Hmap) as (x & _ & Hx).
      destruct (remapPlan_Throw x e Hx) as [message ->]. eauto.
Qed.

Lemma remapPlans_needs_array_witness :
  exists message,
    remapPlans (Obj [("plans", Null)]) = Throw (NativeError "TypeError" message).
Proof.
  apply (proj1 (proj2 (remapPlans_needs_array (Obj [("plans", Null)])))).
  intros items H. discriminate H.
Defined.

(* ===================================================================== *)
(** ** A timeout that the abort signal refuses *)
(* ===================================================================== *)

Lemma retryLoop_refused (transport : Transport) (self : BrainusAI) (req : Request) (n : nat) :
  ~ (0 <= signalTimeout req <= 4294967295)%Z ->
  forall (a : nat) lastError w,
    (Z.of_nat a + Z.of_nat n = maxRetries self + 1)%Z ->
    exists message,
      retryLoop transport self req n (Z.of_nat a) lastError w =
      (Throw (APIError message None),
       w ++ List.map (fun k => ESleep (Z.min (1000 * 2 ^ Z.of_nat k) 10000)) (seq a (n - 1))).
Proof.
  intros Hrange. induction n as [|n IH]; intros a lastError w Hsum.
  - eexists. cbn [retryLoop Nat.sub seq List.map]. unfold throw.
    now rewrite app_nil_r.
  - cbn [retryLoop]. unfold catch.
    destruct (attemptOnce_out_of_range transport req w Hrange) as [message ->].
    cbn [rethrown]. unfold bind.
    replace (Z.of_nat a + 1)%Z with (Z.of_nat (S a)) by lia.
    destruct n as [|n].
    + replace (Z.of_nat a <? maxRetries self)%Z with false
        by (symmetry; apply Z.ltb_ge; lia).
      unfold ret. destruct (IH (S a) (Some (NativeError "RangeError" message)) w)
        as [final Hfinal]; [lia|].
      exists final. exact Hfinal.
    + replace (Z.of_nat a <? maxRetries self)%Z with true
        by (symmetry; apply Z.ltb_lt; lia).
      unfold sleep.
      destruct (IH (S a) (Some (NativeError "RangeError" message))
                  (w ++ [ESleep (backoff (Z.of_nat a))])) as [final Hfinal]; [lia|].
      exists final. rewrite Hfinal. f_equal.
      cbn [Nat.sub seq List.map]. rewrite Nat.sub_0_r. unfold backoff.
      now rewrite <- app_assoc.
Qed.

(** X19.  With a negative timeout the abort signal cannot be built: every
    attempt fails before the transport is called, and the failure is
    retried.  So, for [maxRetries >= 0], [makeRequest] never calls the
    transport, still waits the [maxRetries] backoff delays, and throws
    the [APIError] of the exhausted retries, without status code. *)
Theorem makeRequest_negative_timeout
    (transport : Transport) (self : BrainusAI) (method endpoint : string)
    (body : option (gmap string BodyValue)) (w : Trace) :
  (0 <= maxRetries self)%Z ->
  (timeout self < 0)%Z ->
  exists message,
    makeRequest transport self method endpoint body w =
    (Throw (APIError message None),
     w ++ List.map (fun k => ESleep (Z.min (1000 * 2 ^ Z.of_nat k) 10000))
            (seq 0 (Z.to_nat (maxRetries self))))
    /\ fetchCount (snd (makeRequest transport self method endpoint body w)) = fetchCount w.
Proof.
  intros Hpos Hneg. unfold makeRequest.
  destruct (retryLoop_refused transport self (requestOf self method endpoint body)
              (Z.to_nat (maxRetries self + 1))) with (a := 0%nat) (lastError := @None Thrown)
              (w := w) as [message Hrun].
  - cbn [signalTimeout requestOf]. lia.
  - lia.
  - exists message. change (Z.of_nat 0) with 0%Z in Hrun. rewrite Hrun.
    replace (Z.to_nat (maxRetries self + 1) - 1)%nat with (Z.to_nat (maxRetries self)) by lia.
    split; [reflexivity|]. cbn [snd]. rewrite fetchCount_app.
    assert (Hnone : forall l : list nat,
               fetchCount
                 (List.map (fun k => ESleep (Z.min (1000 * 2 ^ Z.of_nat k) 10000)) l) = 0%nat).
    { induction l as [|k l IHl]; [reflexivity|exact IHl]. }
    rewrite Hnone. lia.
Qed.

Lemma makeRequest_negative_timeout_witness :
  exists message,
    makeRequest (always answered)
      {| apiKey := "brainus_test"; baseUrl := "https://api.brainus.lk";
         timeout := -1; maxRetries := 3 |}
      "GET" "/api/v1/dev/usage" None [] =
    (Throw (APIError message None), [] ++ [ESleep 1000; ESleep 2000; ESleep 4000])
    /\ fetchCount
         (snd (makeRequest (always answered)
                 {| apiKey := "brainus_test"; baseUrl := "https://api.brainus.lk";
                    timeout := -1; maxRetries := 3 |}
                 "GET" "/api/v1/dev/usage" None [])) = fetchCount [].
Proof.
  apply (makeRequest_negative_timeout (always answered)
           {| apiKey := "brainus_test"; baseUrl := "https://api.brainus.lk";
              timeout := -1; maxRetries := 3 |}
           "GET" "/api/v1/dev/usage" None []).
  - simpl. lia.
  - simpl. lia.
Defined.
